(** * Tablero intraoperatorio: the TAT / SLA metrics engine

    A shallow embedding of [compute_metrics] and [summarize] as they are
    written in [app.py] (row-wise) and in [app3.py] (vectorised), with the
    parts of Python, NumPy and pandas they call. *)

From Stdlib Require Import ZArith QArith Qcanon Qround Lia Lqa Ascii String.
From stdpp Require Import base option strings gmap numbers list sorting.

Local Open Scope Z_scope.

(** ** Python values *)

Module Py.

(** Exceptions the modelled code can meet. *)
Inductive exn : Type := ValueError | TypeError.

(** A Python call either returns a value or raises. *)
Inductive result (A : Type) : Type :=
| Ok (a : A)
| Raise (e : exn).
Arguments Ok {A} a.
Arguments Raise {A} e.

#[global] Instance result_ret : MRet result := λ A a, Ok a.
#[global] Instance result_bind : MBind result := λ A B f m,
  match m with Ok a => f a | Raise e => Raise e end.
#[global] Instance result_fmap : FMap result := λ A B f m,
  match m with Ok a => Ok (f a) | Raise e => Raise e end.

(** A [float] is NaN or a finite number.  Finite numbers are kept as exact
    rationals: the durations computed from minute-precision timestamps are
    whole numbers of minutes, which binary64 represents exactly. *)
Inductive float : Type :=
| NaN
| Fin (q : Qc).

#[global] Instance float_eq_dec : EqDecision float.
Proof. solve_decision. Defined.

(** [x <= y] on floats: every comparison with NaN is False. *)
Definition fle (x y : float) : bool :=
  match x, y with
  | Fin a, Fin b => bool_decide (a ≤ b)%Qc
  | _, _ => false
  end.

(** [x / y] for a non-zero finite [y]. *)
Definition fdiv (x : float) (y : Qc) : float :=
  match x with
  | NaN => NaN
  | Fin a => Fin (a / y)%Qc
  end.

(** [float(n)] and the implicit conversion of an [int] operand. *)
Definition of_int (n : Z) : float := Fin (Qc_of_Z n).

(** [datetime]: a timezone-aware point in time, held as the number of
    microseconds since the epoch on the UTC time line.  Every timestamp the
    case store writes carries its UTC offset. *)
Definition datetime : Type := Z.

(** [timedelta]: a signed number of microseconds. *)
Definition timedelta : Type := Z.

(** [t1 - t0] on aware datetimes. *)
Definition dt_sub (t1 t0 : datetime) : timedelta := t1 - t0.

(** [timedelta.total_seconds()]. *)
Definition total_seconds (td : timedelta) : float :=
  Fin (Q2Qc (td # 1000000)).

(** Values stored in the summary dict: [int(...)] or [float(...)]. *)
Inductive pyval : Type :=
| PyInt (n : Z)
| PyFloat (x : float).

#[global] Instance pyval_eq_dec : EqDecision pyval.
Proof. solve_decision. Defined.

End Py.
Export Py.

(** ** The date parsers of the libraries

    [datetime.fromisoformat] (used by [app.py]) and [pandas.to_datetime]
    (used by [app3.py]) are library code.  The metrics engine is verified
    for any behaviour of theirs: each takes a text and either returns the
    datetime it read or raises. *)
Class DateLib : Type := {
  fromisoformat : string → result datetime;
  to_datetime : string → result datetime
}.

(** ** pandas and NumPy *)

Module Pd.

(** [pd.isna] / [Series.notna] on a cell holding a datetime, None or NaT. *)
Definition notna {A} (x : option A) : bool :=
  match x with Some _ => true | None => false end.

(** [Series.notna] on a float column. *)
Definition fnotna (x : float) : bool :=
  match x with Fin _ => true | NaN => false end.

(** [df[c] = df.apply(f, axis=1)].  On a frame with rows, [f] is called on
    every row and the Series of its results becomes the column.  On a
    frame without rows pandas never calls [f] on a row: [apply] hands back
    an empty DataFrame with the columns of [df], and assigning a DataFrame
    of several columns to the single column [c] raises ValueError. *)
Definition assign_apply_axis1 {A B} (f : A → B) (df : list A)
  : result (list B) :=
  match df with
  | [] => Raise ValueError
  | _ => Ok (f <$> df)
  end.

(** [a - b] on two datetime columns: NaT in either operand gives NaT. *)
Definition nat_sub (a b : option datetime) : option timedelta :=
  match a, b with
  | Some x, Some y => Some (dt_sub x y)
  | _, _ => None
  end.

(** [Series.dt.total_seconds()]: NaT gives NaN. *)
Definition dt_total_seconds (td : option timedelta) : float :=
  match td with
  | Some d => total_seconds d
  | None => NaN
  end.

(** [np.where(cond, a, b)] with scalar [a] and [b]. *)
Definition np_where {A} (cond : list bool) (a b : A) : list A :=
  (λ c : bool, if c then a else b) <$> cond.

End Pd.

Module Np.

Local Open Scope Qc_scope.

(** The finite entries of an array, in order: what the nan-functions keep. *)
Definition finite (xs : list float) : list Qc :=
  omap (λ x, match x with Fin q => Some q | NaN => None end) xs.

(** [sum(xs)]. *)
Definition qsum (xs : list Qc) : Qc := foldr Qcplus 0 xs.

(** [np.sort]. *)
Definition sort (xs : list Qc) : list Qc := merge_sort Qcle xs.

(** [np.nanmean]: the mean of the finite entries, NaN when there is none. *)
Definition nanmean (xs : list float) : float :=
  match finite xs with
  | [] => NaN
  | v => Fin (qsum v / Qc_of_Z (Z.of_nat (length v)))
  end.

(** Linear interpolation between two neighbouring order statistics. *)
Definition lerp (a b t : Qc) : Qc := a + (b - a) * t.

(** The percentile of a sorted, non-empty sample [s], method "linear": the
    virtual index is [(n - 1) * q / 100], the result is interpolated
    between the order statistics on either side of it. *)
Definition percentile_sorted (s : list Qc) (q : Qc) : Qc :=
  let n := length s in
  let idx := Qc_of_Z (Z.of_nat (n - 1)%nat) * q / Qc_of_Z 100 in
  let lo := Z.to_nat (Qfloor idx) in
  let hi := Nat.min (lo + 1)%nat (n - 1)%nat in
  lerp (nth lo s 0) (nth hi s 0) (idx - Qc_of_Z (Z.of_nat lo)).

(** [np.nanpercentile(xs, q)]. *)
Definition nanpercentile (xs : list float) (q : Qc) : float :=
  match finite xs with
  | [] => NaN
  | v => Fin (percentile_sorted (sort v) q)
  end.

(** The median of a sorted, non-empty sample: the middle element, or the
    mean of the two middle elements. *)
Definition median_sorted (s : list Qc) : Qc :=
  let n := length s in
  if Nat.even n
  then (nth (n / 2 - 1)%nat s 0 + nth (n / 2)%nat s 0) / Qc_of_Z 2
  else nth (n / 2)%nat s 0.

(** [np.nanmedian]. *)
Definition nanmedian (xs : list float) : float :=
  match finite xs with
  | [] => NaN
  | v => Fin (median_sorted (sort v))
  end.

(** [mask.mean()] on a non-empty boolean Series: the share of True. *)
Definition bool_mean (mask : list bool) : float :=
  match mask with
  | [] => NaN
  | _ => Fin (Qc_of_Z (Z.of_nat (length (filter (λ b, b = true) mask)))
              / Qc_of_Z (Z.of_nat (length mask)))
  end.

(** [c * x] for a finite constant [c]. *)
Definition fscale (c : Qc) (x : float) : float :=
  match x with
  | NaN => NaN
  | Fin a => Fin (c * a)
  end.

End Np.

(** ** The case table *)

(** One row of the table [cases], as [SELECT * FROM cases] returns it: the
    key and thirteen TEXT columns, each NULL ([None]) or a text. *)
Record case : Type := Case {
  id : Z;
  case_code : option string;
  historia_clinica : option string;
  paciente : option string;
  servicio : option string;
  cirujano : option string;
  pieza : option string;
  estado : option string;
  t_inicio : option string;
  t_recepcion : option string;
  t_criostato : option string;
  t_diagnostico : option string;
  t_comunicado : option string;
  notas : option string
}.

(** A row once its five time columns hold datetimes (None / NaT when the
    text was absent or unreadable); the other columns are carried along. *)
Record timed : Type := Timed {
  source : case;
  dt_recepcion : option datetime;
  dt_criostato : option datetime;
  dt_diagnostico : option datetime;
  dt_comunicado : option datetime;
  dt_inicio : option datetime
}.

(** A row of the frame [compute_metrics] returns: the timed row and the
    five derived columns. *)
Record metrics : Type := Metrics {
  row : timed;
  min_recep_a_diag : float;
  min_diag_a_com : float;
  min_total : float;
  cumple_SLA : bool;
  estado_calc : string
}.

(** The five derived values of a row, for comparing two frames. *)
Definition derived (m : metrics)
  : float * float * float * bool * string :=
  (min_recep_a_diag m, min_diag_a_com m, min_total m, cumple_SLA m,
   estado_calc m).

(** The three durations of a row. *)
Definition durations (m : metrics) : float * float * float :=
  (min_recep_a_diag m, min_diag_a_com m, min_total m).

(** Putting five new columns next to a frame, row by row. *)
Fixpoint with_columns (df : list timed) (c1 c2 c3 : list float)
    (c4 : list bool) (c5 : list string) : list metrics :=
  match df, c1, c2, c3, c4, c5 with
  | r :: df, x1 :: c1, x2 :: c2, x3 :: c3, x4 :: c4, x5 :: c5 =>
      Metrics r x1 x2 x3 x4 x5 :: with_columns df c1 c2 c3 c4 c5
  | _, _, _, _, _, _ => []
  end.

(** The keys of the summary dict. *)
Definition k_n : string := "n".
Definition k_n_con_TAT : string := "n_con_TAT".
Definition k_mediana_min : string := "mediana_min".
Definition k_p90_min : string := "p90_min".
Definition k_cumplimiento : string := "cumplimiento_%".
Definition k_prom_recep_diag : string := "prom_recep_diag".
Definition k_prom_diag_com : string := "prom_diag_com".

(** The dict literal with the seven keys, as both [summarize] write it. *)
Definition kpis (n n_con_TAT : Z)
    (mediana p90 cumplimiento prom_recep_diag prom_diag_com : float)
  : gmap string pyval :=
  <[ k_n := PyInt n ]>
  (<[ k_n_con_TAT := PyInt n_con_TAT ]>
  (<[ k_mediana_min := PyFloat mediana ]>
  (<[ k_p90_min := PyFloat p90 ]>
  (<[ k_cumplimiento := PyFloat cumplimiento ]>
  (<[ k_prom_recep_diag := PyFloat prom_recep_diag ]>
  (<[ k_prom_diag_com := PyFloat prom_diag_com ]> ∅)))))).

(** [100.0 * (df_ok["min_total"] <= sla_min).mean()]. *)
Definition compliance_pct (totals : list float) (sla_min : Z) : float :=
  Np.fscale (Qc_of_Z 100)
    (Np.bool_mean ((λ x, fle x (of_int sla_min)) <$> totals)).

(** ** app.py: the row-wise metrics engine *)

Module app.
Section with_lib.
Context `{DateLib}.

(** [parse_iso]: None for NULL and for the empty text; otherwise what
    [datetime.fromisoformat] reads, and None when it raises. *)
Definition parse_iso (dt_iso : option string) : option datetime :=
  match dt_iso with
  | None => None
  | Some s =>
      if decide (s = "") then None
      else match fromisoformat s with
           | Ok t => Some t
           | Raise _ => None
           end
  end.

(** [duration_minutes]. *)
Definition duration_minutes (t0 t1 : option datetime) : float :=
  match t0, t1 with
  | Some a, Some b => fdiv (total_seconds (dt_sub b a)) (Qc_of_Z 60)
  | _, _ => NaN
  end.

(** One row after the loop over the five time columns. *)
Definition convert_row (r : case) : timed :=
  Timed r (parse_iso (t_recepcion r)) (parse_iso (t_criostato r))
          (parse_iso (t_diagnostico r)) (parse_iso (t_comunicado r))
          (parse_iso (t_inicio r)).

(** The loop over the five time columns: [df[col] = df[col].apply(parse_iso)]. *)
Definition convert_times (df : list case) : list timed := convert_row <$> df.

(** [compute_metrics]. *)
Definition compute_metrics (df : list case) (sla_min : Z)
  : result (list metrics) :=
  let df := convert_times df in
  c1 ← Pd.assign_apply_axis1
         (λ r, duration_minutes (dt_recepcion r) (dt_diagnostico r)) df;
  c2 ← Pd.assign_apply_axis1
         (λ r, duration_minutes (dt_diagnostico r) (dt_comunicado r)) df;
  c3 ← Pd.assign_apply_axis1
         (λ r, duration_minutes (dt_recepcion r) (dt_comunicado r)) df;
  let c4 := (λ x, fle x (of_int sla_min)) <$> c3 in
  let c5 := Pd.np_where
              (zip_with andb (Pd.notna ∘ dt_diagnostico <$> df)
                             (Pd.notna ∘ dt_comunicado <$> df))
              "reportado" "pendiente" in
  Ok (with_columns df c1 c2 c3 c4 c5).

(** [summarize]. *)
Definition summarize (df : list metrics) (sla_min : Z) : gmap string pyval :=
  let df_ok := filter (λ r, Pd.fnotna (min_total r) = true) df in
  if decide (df_ok = []) then {[ k_n := PyInt 0 ]}
  else
    kpis (Z.of_nat (length df))
         (Z.of_nat (length df_ok))
         (Np.nanmedian (min_total <$> df_ok))
         (Np.nanpercentile (min_total <$> df_ok) (Qc_of_Z 90))
         (compliance_pct (min_total <$> df_ok) sla_min)
         (Np.nanmean (min_recep_a_diag <$> df_ok))
         (Np.nanmean (min_diag_a_com <$> df_ok)).

End with_lib.
End app.

(** ** app3.py: the vectorised metrics engine *)

Module app3.
Section with_lib.
Context `{DateLib}.

(** [pd.to_datetime(col, errors="coerce")] on one cell: NULL gives NaT, and
    so does a text the parser refuses. *)
Definition to_datetime_coerce (cell : option string) : option datetime :=
  match cell with
  | None => None
  | Some s => match to_datetime s with
              | Ok t => Some t
              | Raise _ => None
              end
  end.

(** One row after the loop over the five time columns. *)
Definition convert_row (r : case) : timed :=
  Timed r (to_datetime_coerce (t_recepcion r))
          (to_datetime_coerce (t_criostato r))
          (to_datetime_coerce (t_diagnostico r))
          (to_datetime_coerce (t_comunicado r))
          (to_datetime_coerce (t_inicio r)).

(** The loop over the five time columns:
    [df[col] = pd.to_datetime(df[col], errors="coerce")]. *)
Definition convert_times (df : list case) : list timed := convert_row <$> df.

(** [(df[b] - df[a]).dt.total_seconds() / 60] on two columns. *)
Definition minutes_between (b a : list (option datetime)) : list float :=
  (λ td, fdiv (Pd.dt_total_seconds td) (Qc_of_Z 60)) <$> zip_with Pd.nat_sub b a.

(** [compute_metrics]: works on a copy, and gives an empty frame its five
    typed empty columns at once. *)
Definition compute_metrics (df : list case) (sla_min : Z) : list metrics :=
  match df with
  | [] => []
  | _ =>
      let df := convert_times df in
      let c1 := minutes_between (dt_diagnostico <$> df) (dt_recepcion <$> df) in
      let c2 := minutes_between (dt_comunicado <$> df) (dt_diagnostico <$> df) in
      let c3 := minutes_between (dt_comunicado <$> df) (dt_recepcion <$> df) in
      let c4 := (λ x, fle x (of_int sla_min)) <$> c3 in
      let c5 := Pd.np_where
                  (zip_with andb (Pd.notna ∘ dt_diagnostico <$> df)
                                 (Pd.notna ∘ dt_comunicado <$> df))
                  "reportado" "pendiente" in
      with_columns df c1 c2 c3 c4 c5
  end.

(** [summarize]. *)
Definition summarize (df : list metrics) (sla_min : Z) : gmap string pyval :=
  let df_ok := filter (λ r, Pd.fnotna (min_total r) = true) df in
  if decide (df_ok = []) then
    kpis (Z.of_nat (length df)) 0 NaN NaN (Fin (Qc_of_Z 0)) NaN NaN
  else
    kpis (Z.of_nat (length df))
         (Z.of_nat (length df_ok))
         (Np.nanmedian (min_total <$> df_ok))
         (Np.nanpercentile (min_total <$> df_ok) (Qc_of_Z 90))
         (compliance_pct (min_total <$> df_ok) sla_min)
         (Np.nanmean (min_recep_a_diag <$> df_ok))
         (Np.nanmean (min_diag_a_com <$> df_ok)).

End with_lib.
End app3.

(** ** A model of the two parsers on texts

    [IsoText.fromisoformat] follows the grammar of [datetime.fromisoformat],
    [YYYY-MM-DD[*HH[:MM[:SS[.fff[fff]]]][+HH:MM[:SS[.ffffff]]]]], and the
    range checks of the [datetime] constructor.  A text without UTC offset
    is read as a wall-clock time on the UTC time line.
    [IsoText.to_datetime] also reads the year-first layout written with
    slashes, one of the further layouts [pandas.to_datetime] accepts. *)

Module IsoText.

Definition digit (c : ascii) : option Z :=
  let n := Z.of_N (Ascii.N_of_ascii c) in
  if bool_decide (48 ≤ n ≤ 57) then Some (n - 48) else None.

(** A run of decimal digits, read as a number. *)
Fixpoint digits_from (acc : Z) (cs : list ascii) : option Z :=
  match cs with
  | [] => Some acc
  | c :: cs => d ← digit c; digits_from (10 * acc + d) cs
  end.

Definition digits (cs : list ascii) : option Z :=
  match cs with
  | [] => None
  | _ => digits_from 0 cs
  end.

Definition is_leap (year : Z) : bool :=
  bool_decide (year mod 4 = 0) &&
  (negb (bool_decide (year mod 100 = 0)) || bool_decide (year mod 400 = 0)).

Definition days_before_year (year : Z) : Z :=
  let y := year - 1 in
  y * 365 + y / 4 - y / 100 + y / 400.

Definition days_in_month (year month : Z) : Z :=
  if bool_decide (month = 2) then (if is_leap year then 29 else 28)
  else if bool_decide (month = 4 ∨ month = 6 ∨ month = 9 ∨ month = 11)
       then 30 else 31.

Fixpoint days_before_month_aux (year : Z) (n : nat) : Z :=
  match n with
  | O => 0
  | S k => days_before_month_aux year k + days_in_month year (Z.of_nat n)
  end.

(** Days of the year that precede the first day of [month]. *)
Definition days_before_month (year month : Z) : Z :=
  days_before_month_aux year (Z.to_nat (month - 1)).

(** The proleptic Gregorian ordinal: 0001-01-01 is day 1. *)
Definition ymd2ord (year month day : Z) : Z :=
  days_before_year year + days_before_month year month + day.

(** [YYYY-MM-DD], exactly ten characters. *)
Definition parse_isoformat_date (cs : list ascii) : option (Z * Z * Z) :=
  match cs with
  | [y1; y2; y3; y4; s1; m1; m2; s2; d1; d2] =>
      if bool_decide (s1 = "-"%char ∧ s2 = "-"%char) then
        y ← digits [y1; y2; y3; y4];
        m ← digits [m1; m2];
        d ← digits [d1; d2];
        Some (y, m, d)
      else None
  | _ => None
  end.

(** The fraction of a second: three or six digits. *)
Definition parse_fraction (cs : list ascii) : option Z :=
  if bool_decide (length cs = 3%nat) then (λ n, n * 1000) <$> digits cs
  else if bool_decide (length cs = 6%nat) then digits cs
  else None.

(** [HH[:MM[:SS[.fff[fff]]]]]: hour, minute, second, microsecond. *)
Definition parse_hh_mm_ss_ff (cs : list ascii) : option (Z * Z * Z * Z) :=
  match cs with
  | h1 :: h2 :: rest =>
      hh ← digits [h1; h2];
      match rest with
      | [] => Some (hh, 0, 0, 0)
      | ":"%char :: m1 :: m2 :: rest =>
          mm ← digits [m1; m2];
          match rest with
          | [] => Some (hh, mm, 0, 0)
          | ":"%char :: s1 :: s2 :: rest =>
              ss ← digits [s1; s2];
              match rest with
              | [] => Some (hh, mm, ss, 0)
              | "."%char :: frac => us ← parse_fraction frac; Some (hh, mm, ss, us)
              | _ => None
              end
          | _ => None
          end
      | _ => None
      end
  | _ => None
  end.

(** Splits a time text at its first [+] or [-]: the clock part, and the
    sign with the offset part when there is one. *)
Fixpoint split_offset (cs : list ascii)
  : list ascii * option (Z * list ascii) :=
  match cs with
  | [] => ([], None)
  | c :: cs' =>
      if bool_decide (c = "+"%char) then ([], Some (1, cs'))
      else if bool_decide (c = "-"%char) then ([], Some (-1, cs'))
      else let '(clock, off) := split_offset cs' in (c :: clock, off)
  end.

(** The UTC offset in microseconds; its text has 5, 8 or 15 characters and
    it lies strictly between minus and plus 24 hours. *)
Definition parse_offset (sign : Z) (cs : list ascii) : option Z :=
  if bool_decide (length cs = 5%nat ∨ length cs = 8%nat ∨ length cs = 15%nat)
  then
    '(hh, mm, ss, us) ← parse_hh_mm_ss_ff cs;
    let off := ((hh * 3600 + mm * 60 + ss) * 1000000 + us) in
    if bool_decide (off < 86400 * 1000000) then Some (sign * off) else None
  else None.

(** The clock reading and the UTC offset (0 when the text has none). *)
Definition parse_isoformat_time (cs : list ascii)
  : option (Z * Z * Z * Z * Z) :=
  let '(clock, off) := split_offset cs in
  '(hh, mm, ss, us) ← parse_hh_mm_ss_ff clock;
  match off with
  | None => Some (hh, mm, ss, us, 0)
  | Some (sign, tz) => o ← parse_offset sign tz; Some (hh, mm, ss, us, o)
  end.

(** The [datetime] constructor: range checks, then the instant. *)
Definition make_datetime (y m d hh mm ss us off : Z) : option datetime :=
  if bool_decide (1 ≤ y ≤ 9999 ∧ 1 ≤ m ≤ 12 ∧ 1 ≤ d ≤ days_in_month y m ∧
                  0 ≤ hh ≤ 23 ∧ 0 ≤ mm ≤ 59 ∧ 0 ≤ ss ≤ 59)
  then Some (((ymd2ord y m d * 86400 + hh * 3600 + mm * 60 + ss) * 1000000
              + us) - off)
  else None.

Definition parse (cs : list ascii) : option datetime :=
  '(y, m, d) ← parse_isoformat_date (take 10 cs);
  match drop 10 cs with
  | [] => make_datetime y m d 0 0 0 0 0
  | _sep :: tstr =>
      '(hh, mm, ss, us, off) ← parse_isoformat_time tstr;
      make_datetime y m d hh mm ss us off
  end.

Definition fromisoformat (s : string) : result datetime :=
  match parse (String.list_ascii_of_string s) with
  | Some t => Ok t
  | None => Raise ValueError
  end.

(** A date written [YYYY/MM/DD] becomes [YYYY-MM-DD]. *)
Definition unslash (cs : list ascii) : list ascii :=
  match cs with
  | y1 :: y2 :: y3 :: y4 :: "/"%char :: m1 :: m2 :: "/"%char :: rest =>
      y1 :: y2 :: y3 :: y4 :: "-"%char :: m1 :: m2 :: "-"%char :: rest
  | _ => cs
  end.

Definition to_datetime (s : string) : result datetime :=
  match parse (unslash (String.list_ascii_of_string s)) with
  | Some t => Ok t
  | None => Raise ValueError
  end.

End IsoText.

(** The two library parsers, as modelled on texts. *)
Definition text_lib : DateLib :=
  {| fromisoformat := IsoText.fromisoformat;
     to_datetime := IsoText.to_datetime |}.

(** ** Reading the engines row by row *)

(** What either engine derives for one timed row. *)
Definition annotate (sla_min : Z) (r : timed) : metrics :=
  let total := app.duration_minutes (dt_recepcion r) (dt_comunicado r) in
  Metrics r
    (app.duration_minutes (dt_recepcion r) (dt_diagnostico r))
    (app.duration_minutes (dt_diagnostico r) (dt_comunicado r))
    total
    (fle total (of_int sla_min))
    (if Pd.notna (dt_diagnostico r) && Pd.notna (dt_comunicado r)
     then "reportado" else "pendiente").

(** The rows of a frame whose total duration is defined: [df_ok]. *)
Definition df_ok (df : list metrics) : list metrics :=
  filter (λ r, Pd.fnotna (min_total r) = true) df.

(** The rows of [df_ok] that meet the threshold. *)
Definition within_sla (sla_min : Z) (df : list metrics) : list metrics :=
  filter (λ r, fle (min_total r) (of_int sla_min) = true) (df_ok df).

(** [r] with its stored state replaced by [e]. *)
Definition with_estado (e : option string) (r : case) : case :=
  Case (id r) (case_code r) (historia_clinica r) (paciente r) (servicio r)
       (cirujano r) (pieza r) e (t_inicio r) (t_recepcion r) (t_criostato r)
       (t_diagnostico r) (t_comunicado r) (notas r).

(** [r] with one of its three clinically relevant time texts replaced. *)
Definition with_recepcion (t : option string) (r : case) : case :=
  Case (id r) (case_code r) (historia_clinica r) (paciente r) (servicio r)
       (cirujano r) (pieza r) (estado r) (t_inicio r) t (t_criostato r)
       (t_diagnostico r) (t_comunicado r) (notas r).

Definition with_diagnostico (t : option string) (r : case) : case :=
  Case (id r) (case_code r) (historia_clinica r) (paciente r) (servicio r)
       (cirujano r) (pieza r) (estado r) (t_inicio r) (t_recepcion r)
       (t_criostato r) t (t_comunicado r) (notas r).

Definition with_comunicado (t : option string) (r : case) : case :=
  Case (id r) (case_code r) (historia_clinica r) (paciente r) (servicio r)
       (cirujano r) (pieza r) (estado r) (t_inicio r) (t_recepcion r)
       (t_criostato r) (t_diagnostico r) t (notas r).

(** The span between two instants, in minutes. *)
Definition minutes_between (t0 t1 : datetime) : Qc :=
  Q2Qc ((t1 - t0) # 60000000).

(** The summary without its compliance rate. *)
Definition without_compliance (s : gmap string pyval) : gmap string pyval :=
  delete k_cumplimiento s.

(** Everything in an annotated row except the compliance flag. *)
Definition but_flag (m : metrics) : timed * (float * float * float) * string :=
  (row m, durations m, estado_calc m).

(** ** Sample tables *)

(** A case with the given key, stored state and reception, diagnosis and
    communication texts; the other columns are NULL. *)
Definition sample (i : Z) (e : string) (recep diag com : option string) : case :=
  Case i None None None None None None (Some e) None recep None diag com None.

Definition T00 : option string := Some "2024-05-01T10:00-05:00".
Definition T10 : option string := Some "2024-05-01T10:10-05:00".
Definition T15 : option string := Some "2024-05-01T10:15-05:00".
Definition T30 : option string := Some "2024-05-01T10:30-05:00".
Definition T40 : option string := Some "2024-05-01T10:40-05:00".

(** Reception, diagnosis after 10 minutes, communication after 15. *)
Definition case_complete : case := sample 1 "reportado" T00 T10 T15.

(** Reception and diagnosis (after 30 minutes), no communication. *)
Definition case_no_com : case := sample 2 "pendiente" T00 T30 None.

(** Reception only. *)
Definition case_recep_only : case := sample 3 "pendiente" T00 None None.

(** Communication recorded 15 minutes before reception. *)
Definition case_negative : case := sample 4 "reportado" T15 None T00.

(** Communication 40 minutes after reception. *)
Definition case_late : case := sample 5 "reportado" T00 None T40.

(** Reception and communication written with slashes. *)
Definition case_slashes : case :=
  sample 6 "reportado" (Some "2024/05/01 10:00") None (Some "2024/05/01 10:15").

(** A reception text no parser reads. *)
Definition case_garbled : case := sample 7 "pendiente" (Some "ayer") T10 T15.

(** ** The claim of the specification on interval means, in its words

    "Mean of reception→diagnosis durations, restricted to cases where that
    specific interval is defined", whatever the total duration is. *)
Definition spec_prom_recep_diag (df : list metrics) : float :=
  Np.nanmean (min_recep_a_diag <$> df).

(** ** Views of the summary and of the timed rows *)

(** The two order statistics of the summary. *)
Definition order_stats (s : gmap string pyval) : option pyval * option pyval :=
  (s !! k_mediana_min, s !! k_p90_min).

(** The three spans of a timed row. *)
Definition span_recep_diag (r : timed) : float :=
  app.duration_minutes (dt_recepcion r) (dt_diagnostico r).
Definition span_diag_com (r : timed) : float :=
  app.duration_minutes (dt_diagnostico r) (dt_comunicado r).
Definition span_total (r : timed) : float :=
  app.duration_minutes (dt_recepcion r) (dt_comunicado r).

(** The timed rows whose total span is defined. *)
Definition with_total (df : list timed) : list timed :=
  filter (λ r, Pd.fnotna (span_total r) = true) df.

(** The two interval means of the summary. *)
Definition interval_means (s : gmap string pyval) : option pyval * option pyval :=
  (s !! k_prom_recep_diag, s !! k_prom_diag_com).

(** A case whose reception, diagnosis and communication texts the two
    engines read to the same value. *)
Definition read_alike `{DateLib} (r : case) : Prop :=
  app.parse_iso (t_recepcion r) = app3.to_datetime_coerce (t_recepcion r) ∧
  app.parse_iso (t_diagnostico r) = app3.to_datetime_coerce (t_diagnostico r) ∧
  app.parse_iso (t_comunicado r) = app3.to_datetime_coerce (t_comunicado r).

(** ** The case store: the table [cases] and its three statements *)

Module Store.

(** The thirteen TEXT columns that the statements of the application name. *)
Inductive column : Type :=
| c_case_code | c_historia_clinica | c_paciente | c_servicio | c_cirujano
| c_pieza | c_estado | c_t_inicio | c_t_recepcion | c_t_criostato
| c_t_diagnostico | c_t_comunicado | c_notas.

#[global] Instance column_eq_dec : EqDecision column.
Proof. solve_decision. Defined.

(** Reading a column of a row. *)
Definition get (c : column) (r : case) : option string :=
  match c with
  | c_case_code => case_code r
  | c_historia_clinica => historia_clinica r
  | c_paciente => paciente r
  | c_servicio => servicio r
  | c_cirujano => cirujano r
  | c_pieza => pieza r
  | c_estado => estado r
  | c_t_inicio => t_inicio r
  | c_t_recepcion => t_recepcion r
  | c_t_criostato => t_criostato r
  | c_t_diagnostico => t_diagnostico r
  | c_t_comunicado => t_comunicado r
  | c_notas => notas r
  end.

(** [SET c = v] on a row. *)
Definition set (c : column) (v : option string) (r : case) : case :=
  match c with
  | c_case_code =>
      Case (id r) v (historia_clinica r) (paciente r) (servicio r) (cirujano r)
           (pieza r) (estado r) (t_inicio r) (t_recepcion r) (t_criostato r)
           (t_diagnostico r) (t_comunicado r) (notas r)
  | c_historia_clinica =>
      Case (id r) (case_code r) v (paciente r) (servicio r) (cirujano r)
           (pieza r) (estado r) (t_inicio r) (t_recepcion r) (t_criostato r)
           (t_diagnostico r) (t_comunicado r) (notas r)
  | c_paciente =>
      Case (id r) (case_code r) (historia_clinica r) v (servicio r) (cirujano r)
           (pieza r) (estado r) (t_inicio r) (t_recepcion r) (t_criostato r)
           (t_diagnostico r) (t_comunicado r) (notas r)
  | c_servicio =>
      Case (id r) (case_code r) (historia_clinica r) (paciente r) v (cirujano r)
           (pieza r) (estado r) (t_inicio r) (t_recepcion r) (t_criostato r)
           (t_diagnostico r) (t_comunicado r) (notas r)
  | c_cirujano =>
      Case (id r) (case_code r) (historia_clinica r) (paciente r) (servicio r) v
           (pieza r) (estado r) (t_inicio r) (t_recepcion r) (t_criostato r)
           (t_diagnostico r) (t_comunicado r) (notas r)
  | c_pieza =>
      Case (id r) (case_code r) (historia_clinica r) (paciente r) (servicio r)
           (cirujano r) v (estado r) (t_inicio r) (t_recepcion r)
           (t_criostato r) (t_diagnostico r) (t_comunicado r) (notas r)
  | c_estado => with_estado v r
  | c_t_inicio =>
      Case (id r) (case_code r) (historia_clinica r) (paciente r) (servicio r)
           (cirujano r) (pieza r) (estado r) v (t_recepcion r) (t_criostato r)
           (t_diagnostico r) (t_comunicado r) (notas r)
  | c_t_recepcion => with_recepcion v r
  | c_t_criostato =>
      Case (id r) (case_code r) (historia_clinica r) (paciente r) (servicio r)
           (cirujano r) (pieza r) (estado r) (t_inicio r) (t_recepcion r) v
           (t_diagnostico r) (t_comunicado r) (notas r)
  | c_t_diagnostico => with_diagnostico v r
  | c_t_comunicado => with_comunicado v r
  | c_notas =>
      Case (id r) (case_code r) (historia_clinica r) (paciente r) (servicio r)
           (cirujano r) (pieza r) (estado r) (t_inicio r) (t_recepcion r)
           (t_criostato r) (t_diagnostico r) (t_comunicado r) v
  end.

(** Keyword arguments [col=value, ...], in the order they are written. *)
Definition kwargs : Type := list (column * option string).

(** [SET c1 = v1, c2 = v2, ...] on a row. *)
Definition set_all (kw : kwargs) (r : case) : case :=
  foldl (λ r' kv, set kv.1 kv.2 r') r kw.

(** The database file: the rows of [cases] in rowid order, and the largest
    rowid the table has ever held, which AUTOINCREMENT keeps in
    [sqlite_sequence]. *)
Record db : Type := Db {
  table : list case;
  seq : Z
}.

(** The largest key in use, 0 for an empty table. *)
Definition max_id (t : list case) : Z := foldr Z.max 0 (id <$> t).

(** [init_db]: [CREATE TABLE IF NOT EXISTS] makes the empty table when the
    file has none and leaves an existing table alone. *)
Definition init_db (file : option db) : db :=
  match file with
  | Some d => d
  | None => Db [] 0
  end.

(** A row that holds its key and NULL everywhere else. *)
Definition blank (i : Z) : case :=
  Case i None None None None None None None None None None None None None.

(** [insert_case]: [INSERT INTO cases (cols) VALUES (?, ...)].  The key is
    one more than the largest rowid that ever existed; the columns that are
    not named stay NULL. *)
Definition insert_case (kw : kwargs) (d : db) : db :=
  let i := Z.max (seq d) (max_id (table d)) + 1 in
  Db (table d ++ [set_all kw (blank i)]) i.

(** [update_case_time]: [UPDATE cases SET field = ? WHERE id = ?]. *)
Definition update_case_time (case_id : Z) (field : column) (dt_iso : string)
    (d : db) : db :=
  Db ((λ r, if decide (id r = case_id) then set field (Some dt_iso) r else r)
        <$> table d)
     (seq d).

(** [update_case_general]: [UPDATE cases SET c1 = ?, ... WHERE id = ?]. *)
Definition update_case_general (case_id : Z) (kw : kwargs) (d : db) : db :=
  Db ((λ r, if decide (id r = case_id) then set_all kw r else r) <$> table d)
     (seq d).

(** [ORDER BY id DESC]: a row goes before the rows with smaller keys. *)
Definition id_desc (a b : case) : Prop := id b ≤ id a.

#[global] Instance id_desc_dec : RelDecision id_desc.
Proof. intros a b. unfold id_desc. apply _. Defined.

(** [SELECT * FROM cases ORDER BY id DESC]. *)
Definition select_desc (d : db) : list case := merge_sort id_desc (table d).

(** The invariant of a table that only [insert_case] has added rows to:
    keys grow strictly with the rowid order, are positive and never exceed
    the recorded sequence. *)
Definition wf (d : db) : Prop :=
  StronglySorted Z.lt (id <$> table d) ∧
  Forall (λ r, 0 < id r ≤ seq d) (table d).

End Store.

(** ** Timestamps as the handlers write them *)

(** A wall-clock reading to the minute with its UTC offset in minutes:
    [datetime.now(TZ).replace(second=0, microsecond=0)] or
    [datetime.combine(date.today(), time, TZ)]. *)
Record civil : Type := Civil {
  year : Z;
  month : Z;
  day : Z;
  hour : Z;
  minute : Z;
  utcoffset : Z
}.

(** The ranges the [datetime] and [timezone] constructors accept. *)
Definition valid_civil (c : civil) : Prop :=
  1 ≤ year c ≤ 9999 ∧ 1 ≤ month c ≤ 12 ∧
  1 ≤ day c ≤ IsoText.days_in_month (year c) (month c) ∧
  0 ≤ hour c ≤ 23 ∧ 0 ≤ minute c ≤ 59 ∧ -1440 < utcoffset c < 1440.

(** The point in time a wall-clock reading denotes. *)
Definition instant (c : civil) : datetime :=
  (IsoText.ymd2ord (year c) (month c) (day c) * 86400
   + hour c * 3600 + minute c * 60) * 1000000
  - utcoffset c * 60 * 1000000.

Module IsoWrite.

(** The character of a decimal digit. *)
Definition digit_char (d : Z) : ascii := Ascii.ascii_of_N (Z.to_N (48 + d)).

(** [%02d] and [%04d]. *)
Definition two_digits (n : Z) : list ascii :=
  [digit_char (n / 10); digit_char (n mod 10)].

Definition four_digits (n : Z) : list ascii :=
  [digit_char (n / 1000); digit_char (n / 100 mod 10);
   digit_char (n / 10 mod 10); digit_char (n mod 10)].

(** The UTC offset as [+HH:MM] or [-HH:MM]. *)
Definition offset_text (off : Z) : list ascii :=
  (if bool_decide (off < 0) then "-"%char else "+"%char)
  :: two_digits (Z.abs off / 60) ++ [":"%char] ++ two_digits (Z.abs off mod 60).

(** [dt.isoformat(timespec="minutes")] on an aware datetime:
    [YYYY-MM-DDTHH:MM+HH:MM]. *)
Definition isoformat_chars (c : civil) : list ascii :=
  four_digits (year c) ++ ["-"%char] ++ two_digits (month c) ++ ["-"%char]
  ++ two_digits (day c) ++ ["T"%char] ++ two_digits (hour c) ++ [":"%char]
  ++ two_digits (minute c) ++ offset_text (utcoffset c).

Definition isoformat (c : civil) : string :=
  String.string_of_list_ascii (isoformat_chars c).

End IsoWrite.

(** ** The session: the database and the cache of [load_cases] *)

(** [st.cache_data] keeps the frame [load_cases] returned until
    [load_cases.clear()] drops it. *)
Record session : Type := Session {
  database : Store.db;
  cache : option (list case)
}.

(** [load_cases]: the cached frame when there is one, otherwise the rows
    read from the table, which are then cached. *)
Definition load_cases (s : session) : list case * session :=
  match cache s with
  | Some df => (df, s)
  | None =>
      let df := Store.select_desc (database s) in
      (df, Session (database s) (Some df))
  end.

(** [refresh_cache]. *)
Definition refresh_cache (s : session) : session :=
  Session (database s) None.

(** A statement run on the connection. *)
Definition on_db (f : Store.db → Store.db) (s : session) : session :=
  Session (f (database s)) (cache s).

(** [x or None] on a text. *)
Definition or_none (x : string) : option string :=
  if decide (x = "") then None else Some x.

(** The four milestones a button can stamp. *)
Inductive hito : Type := Recepcion | Criostato | Diagnostico | Comunicado.

Definition hito_column (h : hito) : Store.column :=
  match h with
  | Recepcion => Store.c_t_recepcion
  | Criostato => Store.c_t_criostato
  | Diagnostico => Store.c_t_diagnostico
  | Comunicado => Store.c_t_comunicado
  end.

(** What the operator can do on the tabs "Registro / Hitos" and
    "Administración" (the demo seeding apart). *)
Inductive action : Type :=
| CrearCaso (case_code hc paciente servicio cirujano pieza notas : string)
            (t_inicio : civil)
| MarcarHito (selected : Z) (h : hito) (ahora : civil)
| AdminEstado (e : string).

(** The form "Nuevo caso". *)
Definition crear_caso (case_code hc paciente servicio cirujano pieza notas : string)
    (t_inicio : civil) (s : session) : session :=
  refresh_cache
    (on_db (Store.insert_case
              [(Store.c_case_code, or_none case_code);
               (Store.c_historia_clinica, or_none hc);
               (Store.c_paciente, or_none paciente);
               (Store.c_servicio, or_none servicio);
               (Store.c_cirujano, or_none cirujano);
               (Store.c_pieza, or_none pieza);
               (Store.c_estado, Some "pendiente");
               (Store.c_t_inicio, Some (IsoWrite.isoformat t_inicio));
               (Store.c_t_recepcion, None);
               (Store.c_t_criostato, None);
               (Store.c_t_diagnostico, None);
               (Store.c_t_comunicado, None);
               (Store.c_notas, or_none notas)]) s).

(** The buttons "Marcar ... = ahora" and "Guardar ... (h:m)": the milestone
    is written; for the communication the stored state becomes "reportado". *)
Definition marcar_hito (selected : Z) (h : hito) (ahora : civil) (s : session)
  : session :=
  let s1 := on_db (Store.update_case_time selected (hito_column h)
                     (IsoWrite.isoformat ahora)) s in
  let s2 := match h with
            | Comunicado =>
                on_db (Store.update_case_general selected
                         [(Store.c_estado, Some "reportado")]) s1
            | _ => s1
            end in
  refresh_cache s2.

(** The buttons of "Administración": the state of the first row of the
    loaded frame is overwritten. *)
Definition admin_estado (e : string) (s : session) : session :=
  let '(df, s1) := load_cases s in
  match df with
  | [] => s1
  | r :: _ =>
      refresh_cache
        (on_db (Store.update_case_general (id r) [(Store.c_estado, Some e)]) s1)
  end.

Definition handle (a : action) (s : session) : session :=
  match a with
  | CrearCaso cc hc p sv ci pz n t => crear_caso cc hc p sv ci pz n t s
  | MarcarHito i h t => marcar_hito i h t s
  | AdminEstado e => admin_estado e s
  end.

(** A run of the application: the actions of the operator, one after the
    other. *)
Definition run (acts : list action) (s : session) : session :=
  foldl (λ s' a, handle a s') s acts.

(** The session a fresh database file starts with. *)
Definition fresh_session : session := Session (Store.init_db None) None.

(** The cache, when filled, holds what the table holds now. *)
Definition coherent (s : session) : Prop :=
  match cache s with
  | Some df => df = Store.select_desc (database s)
  | None => True
  end.

(** ** The tab "Casos filtrados": the filter on the reception date *)

(** [Series.between(left, right)], both ends included; NaT is outside. *)
Definition between (x : option datetime) (left right : datetime) : bool :=
  match x with
  | Some t => bool_decide (left ≤ t ≤ right)
  | None => false
  end.

(** [df[mask]]: the rows whose mask entry is True. *)
Definition select_rows {A} (df : list A) (mask : list bool) : list A :=
  (filter (λ rm : A * bool, rm.2 = true) (zip df mask)).*1.

(** [datetime.combine(d, time(hh, mm), TZ)] for a date given by year, month
    and day and a zone whose offset that day is [off] minutes. *)
Definition dt_combine (y m d hh mm off : Z) : civil := Civil y m d hh mm off.

Module app_view.
Section with_lib.
Context `{DateLib}.

(** [app.py]: the mask is applied unless every reception is missing. *)
Definition filter_reception (df : list case) (start stop : datetime)
  : list case :=
  let col := app.parse_iso ∘ t_recepcion <$> df in
  if forallb (negb ∘ Pd.notna) col then df
  else select_rows df ((λ t, between t start stop) <$> col).

(** [app.py]: the frame of the tab. *)
Definition casos_filtrados (df : list case) (start stop : datetime) (sla_min : Z)
  : result (list metrics) :=
  app.compute_metrics (filter_reception df start stop) sla_min.

End with_lib.
End app_view.

Module app3_view.
Section with_lib.
Context `{DateLib}.

(** [app3.py]: the mask is applied when some reception is readable, and no
    row is kept otherwise. *)
Definition filter_reception (df : list case) (start stop : datetime)
  : list case :=
  let col := app3.to_datetime_coerce ∘ t_recepcion <$> df in
  if existsb Pd.notna col
  then select_rows df ((λ t, between t start stop) <$> col)
  else [].

(** [app3.py]: the frame of the tab; an empty table is shown as it is. *)
Definition casos_filtrados (df : list case) (start stop : datetime) (sla_min : Z)
  : list metrics :=
  match df with
  | [] => []
  | _ => app3.compute_metrics (filter_reception df start stop) sla_min
  end.

End with_lib.
End app3_view.

(** ** The tab "Análisis": the KPI panel *)

(** What the panel shows: the notice that data are missing, the six
    figures it reads from the summary, or the key a lookup did not find. *)
Inductive panel : Type :=
| SinDatos
| Kpis (n n_con_TAT mediana cumplimiento p90 prom_recep_diag : pyval)
| KeyError (key : string).

(** [df3.empty or df3["min_total"].dropna().empty]. *)
Definition sin_datos (df3 : list metrics) : bool :=
  bool_decide (df3 = []) ||
  bool_decide (filter (λ x, Pd.fnotna x = true) (min_total <$> df3) = []).

(** The six lookups [kpis[key]], in the order the panel makes them. *)
Definition read_kpis (kpis : gmap string pyval) : panel :=
  match kpis !! k_n with
  | None => KeyError k_n
  | Some n =>
  match kpis !! k_n_con_TAT with
  | None => KeyError k_n_con_TAT
  | Some t =>
  match kpis !! k_mediana_min with
  | None => KeyError k_mediana_min
  | Some m =>
  match kpis !! k_cumplimiento with
  | None => KeyError k_cumplimiento
  | Some c =>
  match kpis !! k_p90_min with
  | None => KeyError k_p90_min
  | Some p =>
  match kpis !! k_prom_recep_diag with
  | None => KeyError k_prom_recep_diag
  | Some a => Kpis n t m c p a
  end end end end end end.

(** The panel, for either [summarize]. *)
Definition kpi_panel (summarize : list metrics → Z → gmap string pyval)
    (df3 : list metrics) (sla_min : Z) : panel :=
  if sin_datos df3 then SinDatos else read_kpis (summarize df3 sla_min).

(** ** What a run of the application does to the table *)

(** The actions that add a row. *)
Definition is_crear (a : action) : bool :=
  match a with
  | CrearCaso _ _ _ _ _ _ _ _ => true
  | _ => false
  end.

(** How many cases a run creates. *)
Definition creations (acts : list action) : nat :=
  length (filter (λ a, is_crear a = true) acts).

(** The columns that only the form "Nuevo caso" writes. *)
Definition fixed_columns : list Store.column :=
  [Store.c_case_code; Store.c_historia_clinica; Store.c_paciente;
   Store.c_servicio; Store.c_cirujano; Store.c_pieza; Store.c_t_inicio;
   Store.c_notas].

(** [r'] is [r] at a later time: the same key, the same identification, and
    every milestone that was stamped is still stamped. *)
Definition keeps (r r' : case) : Prop :=
  id r' = id r ∧
  (∀ c, c ∈ fixed_columns → Store.get c r' = Store.get c r) ∧
  (∀ h, is_Some (Store.get (hito_column h) r) →
        is_Some (Store.get (hito_column h) r')).

(** A session with one case, created on a fresh database. *)
Definition s_one : session :=
  run [CrearCaso "IO-1" "" "AB" "Trauma" "" "" "" (Civil 2024 5 1 10 0 (-300))]
      fresh_session.

(** * Properties *)

(** ** Arithmetic of durations *)

Lemma minutes_exact (td : Z) :
  (Q2Qc (td # 1000000) / Qc_of_Z 60)%Qc = Q2Qc (td # 60000000).
Proof.
  apply Qc_is_canon.
  unfold Qcdiv, Qcmult, Qcinv, Q2Qc, Qc_of_Z; cbn [this].
  rewrite !Qred_correct.
  unfold Qeq, Qmult, Qinv, inject_Z; cbn. lia.
Qed.

Lemma minutes_between_neg (t0 t1 : datetime) :
  t1 < t0 → (minutes_between t0 t1 < Qc_of_Z 0)%Qc.
Proof.
  intros Hlt. unfold minutes_between, Qclt, Qc_of_Z. cbn [this Q2Qc].
  rewrite Qred_correct. unfold Qlt; cbn. lia.
Qed.

Lemma Qc_of_Z_le (a b : Z) : a ≤ b → (Qc_of_Z a ≤ Qc_of_Z b)%Qc.
Proof. intros. unfold Qcle, Qc_of_Z; cbn [this]. unfold Qle; cbn. lia. Qed.

Lemma duration_minutes_Some (t0 t1 : datetime) :
  app.duration_minutes (Some t0) (Some t1) = Fin (minutes_between t0 t1).
Proof.
  unfold app.duration_minutes, total_seconds, dt_sub, fdiv, minutes_between.
  by rewrite minutes_exact.
Qed.

Lemma duration_minutes_None_r (t0 : option datetime) :
  app.duration_minutes t0 None = NaN.
Proof. by destruct t0. Qed.

Lemma duration_minutes_fin (t0 t1 : option datetime) (q : Qc) :
  app.duration_minutes t0 t1 = Fin q ↔
  ∃ a b, t0 = Some a ∧ t1 = Some b ∧ q = minutes_between a b.
Proof.
  split.
  - destruct t0 as [a|], t1 as [b|]; try done.
    rewrite duration_minutes_Some. intros [= <-]. eauto.
  - intros (a & b & -> & -> & ->). apply duration_minutes_Some.
Qed.

Lemma fle_true (x : float) (n : Z) :
  fle x (of_int n) = true ↔ ∃ q, x = Fin q ∧ (q ≤ Qc_of_Z n)%Qc.
Proof.
  unfold fle, of_int. destruct x as [|a].
  - split; [done | by intros (? & ? & ?)].
  - rewrite bool_decide_eq_true. split; [eauto |].
    by intros (q & [= ->] & ?).
Qed.

(** ** The frame, row by row *)

Lemma zip_with_fmap_diag {A B C D} (f : B → C → D) (g : A → B) (h : A → C)
    (l : list A) :
  zip_with f (g <$> l) (h <$> l) = (λ x, f (g x) (h x)) <$> l.
Proof. induction l as [|x l IH]; [done |]. cbn. by rewrite IH. Qed.

Lemma assemble_rows (sla_min : Z) (df : list timed) :
  with_columns df
    ((λ r, app.duration_minutes (dt_recepcion r) (dt_diagnostico r)) <$> df)
    ((λ r, app.duration_minutes (dt_diagnostico r) (dt_comunicado r)) <$> df)
    ((λ r, app.duration_minutes (dt_recepcion r) (dt_comunicado r)) <$> df)
    ((λ x, fle x (of_int sla_min)) <$>
       ((λ r, app.duration_minutes (dt_recepcion r) (dt_comunicado r)) <$> df))
    (Pd.np_where
       (zip_with andb (Pd.notna ∘ dt_diagnostico <$> df)
                      (Pd.notna ∘ dt_comunicado <$> df))
       "reportado" "pendiente")
  = annotate sla_min <$> df.
Proof.
  induction df as [|r df IH]; [done |].
  cbn. f_equal. apply IH.
Qed.

Section rows.
Context `{DateLib}.

(** [app.py]: on a frame with rows, each row is annotated on its own. *)
Lemma app_compute_metrics_rows (df : list case) (sla_min : Z) :
  df ≠ [] →
  app.compute_metrics df sla_min
  = Ok (annotate sla_min <$> app.convert_times df).
Proof.
  intros Hne. unfold app.compute_metrics.
  destruct df as [|r df]; [done |].
  cbn [app.convert_times fmap list_fmap Pd.assign_apply_axis1 mbind result_bind].
  f_equal. apply (assemble_rows sla_min (_ :: _)).
Qed.

(** [app.py]: on a frame without rows the first [apply] already fails. *)
Lemma app_compute_metrics_nil (sla_min : Z) :
  app.compute_metrics [] sla_min = Raise ValueError.
Proof. done. Qed.

Lemma app_compute_metrics_lookup (df : list case) (sla_min : Z)
    (i : nat) (r : case) :
  df !! i = Some r →
  ∃ out, app.compute_metrics df sla_min = Ok out ∧
         out !! i = Some (annotate sla_min (app.convert_row r)).
Proof.
  intros Hi. eexists. split.
  - apply app_compute_metrics_rows. by intros ->.
  - unfold app.convert_times. by rewrite !list_lookup_fmap, Hi.
Qed.

Lemma minutes_between_cols (df : list timed) (a b : timed → option datetime) :
  app3.minutes_between (b <$> df) (a <$> df)
  = (λ r, app.duration_minutes (a r) (b r)) <$> df.
Proof.
  unfold app3.minutes_between. rewrite zip_with_fmap_diag, <-list_fmap_compose.
  apply list_fmap_ext. intros _ r _. cbn.
  by destruct (a r), (b r).
Qed.

(** [app3.py]: each row is annotated on its own. *)
Lemma app3_compute_metrics_rows (df : list case) (sla_min : Z) :
  app3.compute_metrics df sla_min = annotate sla_min <$> app3.convert_times df.
Proof.
  unfold app3.compute_metrics. destruct df as [|r df]; [done |].
  rewrite !minutes_between_cols. apply assemble_rows.
Qed.

Lemma app3_compute_metrics_lookup (df : list case) (sla_min : Z)
    (i : nat) (r : case) :
  df !! i = Some r →
  app3.compute_metrics df sla_min !! i
  = Some (annotate sla_min (app3.convert_row r)).
Proof.
  intros Hi. rewrite app3_compute_metrics_rows. unfold app3.convert_times.
  by rewrite !list_lookup_fmap, Hi.
Qed.
End rows.

(** ** Per-case derived values *)

Lemma annotate_cumple_SLA (sla_min : Z) (r : timed) :
  cumple_SLA (annotate sla_min r) = true ↔
  ∃ q, min_total (annotate sla_min r) = Fin q ∧ (q ≤ Qc_of_Z sla_min)%Qc.
Proof. apply fle_true. Qed.

Lemma annotate_undefined_total (sla_min : Z) (r : timed) :
  dt_recepcion r = None ∨ dt_comunicado r = None →
  min_total (annotate sla_min r) = NaN ∧ cumple_SLA (annotate sla_min r) = false.
Proof.
  intros Hnone. cbn.
  assert (app.duration_minutes (dt_recepcion r) (dt_comunicado r) = NaN) as ->;
    [| done].
  destruct Hnone as [-> | ->]; [done | apply duration_minutes_None_r].
Qed.

Lemma annotate_estado_reportado (sla_min : Z) (r : timed) :
  estado_calc (annotate sla_min r) = "reportado" ↔
  is_Some (dt_diagnostico r) ∧ is_Some (dt_comunicado r).
Proof.
  cbn. destruct (dt_diagnostico r), (dt_comunicado r); cbn;
    (split; [intros ?; first [done | split; eauto]
            | intros [[? ?] [? ?]]; done]).
Qed.

Lemma annotate_estado_pendiente (sla_min : Z) (r : timed) :
  estado_calc (annotate sla_min r) = "pendiente" ↔
  ¬ (is_Some (dt_diagnostico r) ∧ is_Some (dt_comunicado r)).
Proof.
  cbn. destruct (dt_diagnostico r), (dt_comunicado r); cbn;
    (split; [intros ? [[? ?] [? ?]]; done
            | intros Hn; first [done | destruct Hn; split; eauto]]).
Qed.

Section per_case.
Context `{DateLib}.
Implicit Types (df : list case) (r : case) (sla_min : Z) (i : nat).



End per_case.




(** ** The summary dict *)

Section kpis.
Variables (n t : Z) (m p c a b : float).

Lemma kpis_n : kpis n t m p c a b !! k_n = Some (PyInt n).
Proof. done. Qed.
Lemma kpis_n_con_TAT : kpis n t m p c a b !! k_n_con_TAT = Some (PyInt t).
Proof. done. Qed.
Lemma kpis_mediana_min : kpis n t m p c a b !! k_mediana_min = Some (PyFloat m).
Proof. done. Qed.
Lemma kpis_p90_min : kpis n t m p c a b !! k_p90_min = Some (PyFloat p).
Proof. done. Qed.
Lemma kpis_cumplimiento : kpis n t m p c a b !! k_cumplimiento = Some (PyFloat c).
Proof. done. Qed.
Lemma kpis_prom_recep_diag :
  kpis n t m p c a b !! k_prom_recep_diag = Some (PyFloat a).
Proof. done. Qed.
Lemma kpis_prom_diag_com :
  kpis n t m p c a b !! k_prom_diag_com = Some (PyFloat b).
Proof. done. Qed.

Lemma kpis_without_compliance (c' : float) :
  without_compliance (kpis n t m p c a b)
  = without_compliance (kpis n t m p c' a b).
Proof. done. Qed.
End kpis.

(** ** Order statistics do not see the order of the sample *)

Lemma sort_Permutation (xs ys : list Qc) :
  xs ≡ₚ ys → Np.sort xs = Np.sort ys.
Proof.
  intros Hp. unfold Np.sort.
  apply (StronglySorted_unique Qcle).
  - apply StronglySorted_merge_sort; apply _.
  - apply StronglySorted_merge_sort; apply _.
  - by rewrite !merge_sort_Permutation.
Qed.

Lemma finite_Permutation (xs ys : list float) :
  xs ≡ₚ ys → Np.finite xs ≡ₚ Np.finite ys.
Proof. intros Hp. unfold Np.finite. by rewrite Hp. Qed.

Lemma nanmedian_Permutation (xs ys : list float) :
  xs ≡ₚ ys → Np.nanmedian xs = Np.nanmedian ys.
Proof.
  intros Hp%finite_Permutation. unfold Np.nanmedian.
  destruct (Np.finite xs) as [|x v] eqn:Hx, (Np.finite ys) as [|y w] eqn:Hy.
  - done.
  - by apply Permutation_nil_cons in Hp.
  - symmetry in Hp. by apply Permutation_nil_cons in Hp.
  - by rewrite (sort_Permutation _ _ Hp).
Qed.

Lemma nanpercentile_Permutation (xs ys : list float) (q : Qc) :
  xs ≡ₚ ys → Np.nanpercentile xs q = Np.nanpercentile ys q.
Proof.
  intros Hp%finite_Permutation. unfold Np.nanpercentile.
  destruct (Np.finite xs) as [|x v] eqn:Hx, (Np.finite ys) as [|y w] eqn:Hy.
  - done.
  - by apply Permutation_nil_cons in Hp.
  - symmetry in Hp. by apply Permutation_nil_cons in Hp.
  - by rewrite (sort_Permutation _ _ Hp).
Qed.

Lemma df_ok_Permutation (df df' : list metrics) :
  df ≡ₚ df' → df_ok df ≡ₚ df_ok df'.
Proof. intros Hp. unfold df_ok. by rewrite Hp. Qed.

Lemma df_ok_nil_Permutation (df df' : list metrics) :
  df ≡ₚ df' → df_ok df = [] ↔ df_ok df' = [].
Proof.
  intros Hp%df_ok_Permutation. split; intros Hnil; rewrite Hnil in Hp.
  - by apply Permutation_nil_l in Hp.
  - by apply Permutation_nil_r in Hp.
Qed.


Lemma app_summarize_Permutation (df df' : list metrics) (sla_min : Z) :
  df ≡ₚ df' →
  order_stats (app.summarize df sla_min) = order_stats (app.summarize df' sla_min).
Proof.
  intros Hp. unfold app.summarize. fold (df_ok df) (df_ok df').
  pose proof (df_ok_nil_Permutation _ _ Hp) as Hnil.
  pose proof (df_ok_Permutation _ _ Hp) as Hok.
  do 2 case_decide; [done | tauto | tauto |].
  unfold order_stats. rewrite !kpis_mediana_min, !kpis_p90_min.
  rewrite (nanmedian_Permutation (min_total <$> df_ok df) (min_total <$> df_ok df')),
          (nanpercentile_Permutation (min_total <$> df_ok df)
             (min_total <$> df_ok df')); [done | by rewrite Hok ..].
Qed.

Lemma app3_summarize_Permutation (df df' : list metrics) (sla_min : Z) :
  df ≡ₚ df' →
  order_stats (app3.summarize df sla_min) = order_stats (app3.summarize df' sla_min).
Proof.
  intros Hp. unfold app3.summarize. fold (df_ok df) (df_ok df').
  pose proof (df_ok_nil_Permutation _ _ Hp) as Hnil.
  pose proof (df_ok_Permutation _ _ Hp) as Hok.
  do 2 case_decide; [done | tauto | tauto |].
  unfold order_stats. rewrite !kpis_mediana_min, !kpis_p90_min.
  rewrite (nanmedian_Permutation (min_total <$> df_ok df) (min_total <$> df_ok df')),
          (nanpercentile_Permutation (min_total <$> df_ok df)
             (min_total <$> df_ok df')); [done | by rewrite Hok ..].
Qed.

Section order.
Context `{DateLib}.

(** C7: the median and the 90th percentile of the summary are functions
    of the input table and the threshold, and permuting the rows of the
    table leaves both as they are.  Both engines. *)
Theorem median_p90_row_order_invariant (df df' : list case) (sla_min : Z) :
  df ≡ₚ df' →
  ((λ out, order_stats (app.summarize out sla_min))
     <$> app.compute_metrics df sla_min
   = (λ out, order_stats (app.summarize out sla_min))
     <$> app.compute_metrics df' sla_min) ∧
  order_stats (app3.summarize (app3.compute_metrics df sla_min) sla_min)
  = order_stats (app3.summarize (app3.compute_metrics df' sla_min) sla_min).
Proof.
  intros Hp. split.
  - destruct (decide (df = [])) as [-> | Hne].
    + apply Permutation_nil_l in Hp as ->. done.
    + assert (df' ≠ []) as Hne'.
      { intros ->. by apply Permutation_nil_r in Hp. }
      rewrite !app_compute_metrics_rows by done. cbn. f_equal.
      apply app_summarize_Permutation. unfold app.convert_times.
      by rewrite Hp.
  - rewrite !app3_compute_metrics_rows.
    apply app3_summarize_Permutation. unfold app3.convert_times.
    by rewrite Hp.
Qed.
End order.

Lemma median_p90_row_order_invariant_witness :
  order_stats (app3.summarize
                 (app3.compute_metrics (H := text_lib)
                    [case_complete; case_late; case_no_com] 30) 30)
  = order_stats (app3.summarize
                   (app3.compute_metrics (H := text_lib)
                      [case_no_com; case_late; case_complete] 30) 30).
Proof.
  apply (median_p90_row_order_invariant (H := text_lib)).
  etransitivity; [apply Permutation_swap |].
  etransitivity; [apply perm_skip, Permutation_swap |].
  etransitivity; [apply Permutation_swap |]. reflexivity.
Defined.

(** ** The summary in terms of the timed rows *)

Lemma df_ok_annotate (sla_min : Z) (df : list timed) :
  df_ok (annotate sla_min <$> df) = annotate sla_min <$> with_total df.
Proof.
  unfold df_ok, with_total. induction df as [|r df IH]; [done |].
  cbn [fmap list_fmap]. rewrite !filter_cons. cbn [min_total annotate].
  fold (span_total r). case_decide; cbn [fmap list_fmap]; by rewrite IH.
Qed.

Lemma fmap_annotate {A} (f : metrics → A) (sla_min : Z) (df : list timed) :
  f <$> (annotate sla_min <$> df) = (λ r, f (annotate sla_min r)) <$> df.
Proof. by rewrite <-list_fmap_compose. Qed.

Lemma app_summarize_annotate (sla_min : Z) (df : list timed) :
  app.summarize (annotate sla_min <$> df) sla_min
  = if decide (with_total df = []) then {[ k_n := PyInt 0 ]}
    else kpis (Z.of_nat (length df)) (Z.of_nat (length (with_total df)))
           (Np.nanmedian (span_total <$> with_total df))
           (Np.nanpercentile (span_total <$> with_total df) (Qc_of_Z 90))
           (compliance_pct (span_total <$> with_total df) sla_min)
           (Np.nanmean (span_recep_diag <$> with_total df))
           (Np.nanmean (span_diag_com <$> with_total df)).
Proof.
  unfold app.summarize. fold (df_ok (annotate sla_min <$> df)).
  rewrite df_ok_annotate, !fmap_annotate, !length_fmap.
  case_decide as Ha; case_decide as Hb; try done.
  - by apply fmap_nil_inv in Ha.
  - by rewrite Hb in Ha.
Qed.

Lemma app3_summarize_annotate (sla_min : Z) (df : list timed) :
  app3.summarize (annotate sla_min <$> df) sla_min
  = kpis (Z.of_nat (length df)) (Z.of_nat (length (with_total df)))
      (Np.nanmedian (span_total <$> with_total df))
      (Np.nanpercentile (span_total <$> with_total df) (Qc_of_Z 90))
      (if decide (with_total df = []) then Fin (Qc_of_Z 0)
       else compliance_pct (span_total <$> with_total df) sla_min)
      (Np.nanmean (span_recep_diag <$> with_total df))
      (Np.nanmean (span_diag_com <$> with_total df)).
Proof.
  unfold app3.summarize. fold (df_ok (annotate sla_min <$> df)).
  rewrite df_ok_annotate, !fmap_annotate, !length_fmap.
  case_decide as Ha; case_decide as Hb; try done.
  - by rewrite Hb.
  - by apply fmap_nil_inv in Ha.
  - by rewrite Hb in Ha.
Qed.

Section frame.
Context `{DateLib}.

(** C6: recomputing with another threshold changes nothing but the
    compliance outputs.  Every annotated row keeps its columns, its three
    durations and its [estado_calc]; the summary keeps every entry other
    than the compliance rate.  Both engines. *)
Theorem threshold_changes_only_compliance (df : list case) (sla1 sla2 : Z) :
  ((λ out : list metrics, but_flag <$> out) <$> app.compute_metrics df sla1
   = (λ out : list metrics, but_flag <$> out) <$> app.compute_metrics df sla2) ∧
  ((λ out, without_compliance (app.summarize out sla1))
     <$> app.compute_metrics df sla1
   = (λ out, without_compliance (app.summarize out sla2))
     <$> app.compute_metrics df sla2) ∧
  (but_flag <$> app3.compute_metrics df sla1
   = but_flag <$> app3.compute_metrics df sla2) ∧
  (without_compliance (app3.summarize (app3.compute_metrics df sla1) sla1)
   = without_compliance (app3.summarize (app3.compute_metrics df sla2) sla2)).
Proof.
  split_and!.
  - destruct (decide (df = [])) as [-> | Hne]; [done |].
    rewrite !app_compute_metrics_rows by done. cbn. f_equal.
    by rewrite !fmap_annotate.
  - destruct (decide (df = [])) as [-> | Hne]; [done |].
    rewrite !app_compute_metrics_rows by done. cbn. f_equal.
    rewrite !app_summarize_annotate. case_decide; [done |].
    apply kpis_without_compliance.
  - rewrite !app3_compute_metrics_rows. by rewrite !fmap_annotate.
  - rewrite !app3_compute_metrics_rows, !app3_summarize_annotate.
    apply kpis_without_compliance.
Qed.
End frame.

(** ** The compliance rate *)

Lemma length_filter_true_fmap {A} (f : A → bool) (l : list A) :
  length (filter (λ b : bool, b = true) (f <$> l))
  = length (filter (λ x, f x = true) l).
Proof.
  induction l as [|x l IH]; [done |].
  cbn [fmap list_fmap]. rewrite !filter_cons.
  destruct (f x) eqn:Hfx; repeat case_decide; try done; cbn; by rewrite IH.
Qed.

(** The rate: the share of [df_ok] within the threshold, times 100. *)
Lemma compliance_pct_df_ok (df : list metrics) (sla_min : Z) :
  df_ok df ≠ [] →
  compliance_pct (min_total <$> df_ok df) sla_min
  = Fin (Qc_of_Z 100 * (Qc_of_Z (Z.of_nat (length (within_sla sla_min df)))
                        / Qc_of_Z (Z.of_nat (length (df_ok df)))))%Qc.
Proof.
  intros Hne. unfold compliance_pct, within_sla.
  rewrite <-list_fmap_compose. unfold Np.bool_mean.
  destruct (df_ok df) as [|m ok] eqn:Hok; [done |].
  cbn [fmap list_fmap Np.fscale]. rewrite <-Hok.
  change (((λ x, fle x (of_int sla_min)) ∘ min_total) m
          :: ((λ x, fle x (of_int sla_min)) ∘ min_total <$> ok))
    with (((λ x, fle x (of_int sla_min)) ∘ min_total) <$> (m :: ok)).
  rewrite <-Hok, length_filter_true_fmap, length_fmap. done.
Qed.

Lemma app_summarize_compliance (df : list metrics) (sla_min : Z) :
  df_ok df ≠ [] →
  app.summarize df sla_min !! k_cumplimiento
  = Some (PyFloat (compliance_pct (min_total <$> df_ok df) sla_min)).
Proof.
  intros Hne. unfold app.summarize. fold (df_ok df).
  case_decide; [done |]. apply kpis_cumplimiento.
Qed.

Lemma app3_summarize_compliance (df : list metrics) (sla_min : Z) :
  df_ok df ≠ [] →
  app3.summarize df sla_min !! k_cumplimiento
  = Some (PyFloat (compliance_pct (min_total <$> df_ok df) sla_min)).
Proof.
  intros Hne. unfold app3.summarize. fold (df_ok df).
  case_decide; [done |]. apply kpis_cumplimiento.
Qed.

(** A row with a negative total meets every positive threshold and sits in
    both the denominator and the numerator of the rate. *)
Lemma negative_total_counted (df : list metrics) (sla_min : Z) (i : nat)
    (m : metrics) (q : Qc) :
  df !! i = Some m → min_total m = Fin q → (q < Qc_of_Z 0)%Qc → 0 < sla_min →
  cumple_SLA m = fle (min_total m) (of_int sla_min) →
  cumple_SLA m = true ∧ m ∈ df_ok df ∧ m ∈ within_sla sla_min df.
Proof.
  intros Hi Hq Hneg Hsla Hflag.
  assert (fle (min_total m) (of_int sla_min) = true) as Hle.
  { apply fle_true. exists q. split; [done |].
    apply Qclt_le_weak. eapply Qclt_le_trans; [done |].
    apply Qc_of_Z_le. lia. }
  assert (m ∈ df_ok df) as Hok.
  { apply list_elem_of_filter. split; [by rewrite Hq |].
    by eapply list_elem_of_lookup_2. }
  split_and!; [congruence | done |].
  by apply list_elem_of_filter.
Qed.

Section negative.
Context `{DateLib}.
Implicit Types (df : list case) (r : case) (sla_min : Z) (i : nat).

End negative.


(** ** Evaluating finite floats *)

Lemma Fin_eq (a b : Qc) : Qeq_bool a b = true → Fin a = Fin b.
Proof. intros Heq%Qeq_bool_eq. f_equal. by apply Qc_is_canon. Qed.

Lemma Some_Fin_eq (a b : Qc) :
  Qeq_bool a b = true → Some (PyFloat (Fin a)) = Some (PyFloat (Fin b)).
Proof. intros Heq. by rewrite (Fin_eq a b Heq). Qed.

(** Closes an equation between evaluated floats. *)
Ltac float_eval :=
  vm_compute;
  first [ reflexivity | by apply Fin_eq | by apply Some_Fin_eq ].

(** ** Interval means *)

Lemma app_summarize_interval_means (df : list metrics) (sla_min : Z) :
  df_ok df ≠ [] →
  interval_means (app.summarize df sla_min)
  = (Some (PyFloat (Np.nanmean (min_recep_a_diag <$> df_ok df))),
     Some (PyFloat (Np.nanmean (min_diag_a_com <$> df_ok df)))).
Proof.
  intros Hne. unfold app.summarize. fold (df_ok df).
  case_decide; [done |]. done.
Qed.

Lemma app3_summarize_interval_means (df : list metrics) (sla_min : Z) :
  interval_means (app3.summarize df sla_min)
  = (Some (PyFloat (Np.nanmean (min_recep_a_diag <$> df_ok df))),
     Some (PyFloat (Np.nanmean (min_diag_a_com <$> df_ok df)))).
Proof.
  unfold app3.summarize. fold (df_ok df).
  case_decide as Hnil; [| done]. by rewrite Hnil.
Qed.

Lemma with_total_drop (df1 df2 : list timed) (r : timed) :
  dt_recepcion r = None ∨ dt_comunicado r = None →
  with_total (df1 ++ r :: df2) = with_total (df1 ++ df2).
Proof.
  intros Hnone. unfold with_total. rewrite !filter_app, filter_cons.
  case_decide as Hr; [| done].
  unfold span_total in Hr.
  destruct Hnone as [Hn | Hn]; rewrite Hn in Hr;
    [done | by rewrite duration_minutes_None_r in Hr].
Qed.

Section means.
Context `{DateLib}.

End means.



(** ** The summary when no case has a total duration *)

Lemma df_ok_nil_iff (df : list metrics) :
  df_ok df = [] ↔ Forall (λ m, min_total m = NaN) df.
Proof.
  unfold df_ok. induction df as [|m df IH]; [done |].
  rewrite filter_cons, Forall_cons.
  destruct (min_total m) eqn:Hm; cbn; case_decide; try done.
  - rewrite IH. tauto.
  - split; [done | by intros [? _]].
Qed.

(** [app3.py]: with no defined total, the summary has the raw count, zero
    cases with TAT, a rate of exactly 0.0 and NaN for the other statistics. *)
Lemma app3_summarize_no_total (df : list metrics) (sla_min : Z) :
  Forall (λ m, min_total m = NaN) df →
  app3.summarize df sla_min
  = kpis (Z.of_nat (length df)) 0 NaN NaN (Fin (Qc_of_Z 0)) NaN NaN.
Proof.
  intros Hall%df_ok_nil_iff. unfold app3.summarize. fold (df_ok df).
  by case_decide.
Qed.

(** [app.py]: with no defined total, the summary is the one-entry dict. *)
Lemma app_summarize_no_total (df : list metrics) (sla_min : Z) :
  Forall (λ m, min_total m = NaN) df →
  app.summarize df sla_min = {[ k_n := PyInt 0 ]}.
Proof.
  intros Hall%df_ok_nil_iff. unfold app.summarize. fold (df_ok df).
  by case_decide.
Qed.

Section no_total.
Context `{DateLib}.

(** [app3.py], from the table: when no case has both a reception and a
    communication timestamp, the summary is as the specification says. *)
Lemma app3_summary_without_TAT (df : list case) (sla_min : Z) :
  Forall (λ r, app3.to_datetime_coerce (t_recepcion r) = None ∨
               app3.to_datetime_coerce (t_comunicado r) = None) df →
  app3.summarize (app3.compute_metrics df sla_min) sla_min
  = kpis (Z.of_nat (length df)) 0 NaN NaN (Fin (Qc_of_Z 0)) NaN NaN.
Proof.
  intros Hall. rewrite app3_summarize_no_total.
  - rewrite app3_compute_metrics_rows. unfold app3.convert_times.
    by rewrite !length_fmap.
  - rewrite app3_compute_metrics_rows. unfold app3.convert_times.
    apply Forall_fmap, Forall_fmap. eapply Forall_impl; [exact Hall |].
    intros r Hr. by apply (annotate_undefined_total sla_min (app3.convert_row r)).
Qed.
End no_total.


(** ** Unreadable texts and empty tables *)

Section degenerate.
Context `{DateLib}.
Implicit Types (r : case) (s : string) (sla_min : Z).

(** [parse_iso] always returns: the exception of the parser is caught. *)
Lemma parse_iso_unreadable s e :
  fromisoformat s = Raise e → app.parse_iso (Some s) = app.parse_iso None.
Proof. intros Hs. cbn. case_decide; [done |]. by rewrite Hs. Qed.

Lemma to_datetime_coerce_unreadable s e :
  to_datetime s = Raise e →
  app3.to_datetime_coerce (Some s) = app3.to_datetime_coerce None.
Proof. intros Hs. cbn. by rewrite Hs. Qed.

(** [app.py]: an unreadable reception, diagnosis or communication text
    gives the derived values of the case where that field is NULL, and the
    durations that use the field are NaN. *)
Lemma app_unreadable_as_absent r s e sla_min :
  fromisoformat s = Raise e →
  (t_recepcion r = Some s →
     derived (annotate sla_min (app.convert_row r))
     = derived (annotate sla_min (app.convert_row (with_recepcion None r))) ∧
     min_recep_a_diag (annotate sla_min (app.convert_row r)) = NaN ∧
     min_total (annotate sla_min (app.convert_row r)) = NaN) ∧
  (t_diagnostico r = Some s →
     derived (annotate sla_min (app.convert_row r))
     = derived (annotate sla_min (app.convert_row (with_diagnostico None r))) ∧
     min_recep_a_diag (annotate sla_min (app.convert_row r)) = NaN ∧
     min_diag_a_com (annotate sla_min (app.convert_row r)) = NaN) ∧
  (t_comunicado r = Some s →
     derived (annotate sla_min (app.convert_row r))
     = derived (annotate sla_min (app.convert_row (with_comunicado None r))) ∧
     min_diag_a_com (annotate sla_min (app.convert_row r)) = NaN ∧
     min_total (annotate sla_min (app.convert_row r)) = NaN).
Proof.
  intros Hs. pose proof (parse_iso_unreadable s e Hs) as Hp.
  split_and!; intros Hr; unfold derived, annotate; cbn -[app.parse_iso];
    rewrite Hr, Hp; cbn; rewrite ?duration_minutes_None_r; done.
Qed.

(** [app3.py]: the same, through [errors="coerce"]. *)
Lemma app3_unreadable_as_absent r s e sla_min :
  to_datetime s = Raise e →
  (t_recepcion r = Some s →
     derived (annotate sla_min (app3.convert_row r))
     = derived (annotate sla_min (app3.convert_row (with_recepcion None r))) ∧
     min_recep_a_diag (annotate sla_min (app3.convert_row r)) = NaN ∧
     min_total (annotate sla_min (app3.convert_row r)) = NaN) ∧
  (t_diagnostico r = Some s →
     derived (annotate sla_min (app3.convert_row r))
     = derived (annotate sla_min (app3.convert_row (with_diagnostico None r))) ∧
     min_recep_a_diag (annotate sla_min (app3.convert_row r)) = NaN ∧
     min_diag_a_com (annotate sla_min (app3.convert_row r)) = NaN) ∧
  (t_comunicado r = Some s →
     derived (annotate sla_min (app3.convert_row r))
     = derived (annotate sla_min (app3.convert_row (with_comunicado None r))) ∧
     min_diag_a_com (annotate sla_min (app3.convert_row r)) = NaN ∧
     min_total (annotate sla_min (app3.convert_row r)) = NaN).
Proof.
  intros Hs. pose proof (to_datetime_coerce_unreadable s e Hs) as Hp.
  split_and!; intros Hr; unfold derived, annotate;
    cbn -[app3.to_datetime_coerce];
    rewrite Hr, Hp; cbn; rewrite ?duration_minutes_None_r; done.
Qed.

(** [app3.py]: an empty table gives an empty frame. *)
Lemma app3_compute_metrics_nil sla_min : app3.compute_metrics [] sla_min = [].
Proof. done. Qed.

(** Neither engine fails on a table that has rows, whatever its texts. *)
Lemma compute_metrics_returns (df : list case) sla_min :
  df ≠ [] →
  ∃ out, app.compute_metrics df sla_min = Ok out ∧ length out = length df ∧
         length (app3.compute_metrics df sla_min) = length df.
Proof.
  intros Hne. eexists. split; [by apply app_compute_metrics_rows |].
  rewrite app3_compute_metrics_rows.
  unfold app.convert_times, app3.convert_times. by rewrite !length_fmap.
Qed.

(** C8 at the empty table.  The claim asks for an empty output and no
    error; [compute_metrics] of [app3.py] returns the empty frame,
    [compute_metrics] of [app.py] raises ValueError at its first
    [df.apply(..., axis=1)]. *)
Theorem app_compute_metrics_empty_table_raises sla_min :
  app.compute_metrics [] sla_min = Raise ValueError ∧
  app3.compute_metrics [] sla_min = [].
Proof. done. Qed.

(** ** The two engines side by side *)


(** On a table with rows, all of them read alike, the frames of derived
    values coincide. *)
Lemma same_derived_frames (df : list case) sla_min :
  df ≠ [] → Forall read_alike df →
  (λ out : list metrics, derived <$> out) <$> app.compute_metrics df sla_min
  = Ok (derived <$> app3.compute_metrics df sla_min).
Proof.
  intros Hne Hall.
  rewrite app_compute_metrics_rows, app3_compute_metrics_rows by done.
  cbn. f_equal. unfold app.convert_times, app3.convert_times.
  rewrite <-!list_fmap_compose. apply Forall_fmap_ext_1.
  eapply Forall_impl; [exact Hall |]. intros r (Hr & Hd & Hc).
  unfold derived, annotate, compose.
  cbn -[app.parse_iso app3.to_datetime_coerce].
  by rewrite Hr, Hd, Hc.
Qed.
End degenerate.

(** In the text model, a text that is not in the slash layout is read alike
    by both parsers. *)
Lemma text_lib_read_alike (s : string) :
  IsoText.unslash (String.list_ascii_of_string s) = String.list_ascii_of_string s →
  app.parse_iso (H := text_lib) (Some s)
  = app3.to_datetime_coerce (H := text_lib) (Some s).
Proof.
  intros Hs. cbn. unfold IsoText.fromisoformat, IsoText.to_datetime.
  rewrite Hs. case_decide as He; [| by destruct (IsoText.parse _)].
  by rewrite He.
Qed.



(** ** Scenarios *)

(** Reception T+0, diagnosis T+10, communication T+15, threshold 30. *)
Example scenario_complete :
  ∃ out m m',
    app.compute_metrics (H := text_lib) [case_complete] 30 = Ok out ∧
    out !! 0%nat = Some m ∧
    app3.compute_metrics (H := text_lib) [case_complete] 30 !! 0%nat = Some m' ∧
    derived m = derived m' ∧
    min_recep_a_diag m = Fin (Qc_of_Z 10) ∧ min_diag_a_com m = Fin (Qc_of_Z 5) ∧
    min_total m = Fin (Qc_of_Z 15) ∧ cumple_SLA m = true ∧
    estado_calc m = "reportado".
Proof.
  do 3 eexists. split_and!; [reflexivity .. | float_eval | float_eval
                            | float_eval | reflexivity | reflexivity].
Qed.

(** Reception T+0, communication T+40, threshold 30. *)
Example scenario_late :
  ∃ m, app3.compute_metrics (H := text_lib) [case_late] 30 !! 0%nat = Some m ∧
       min_total m = Fin (Qc_of_Z 40) ∧ cumple_SLA m = false.
Proof. eexists. split_and!; [reflexivity | float_eval | reflexivity]. Qed.

(** Reception and diagnosis defined, communication absent: no total, state
    "pendiente", left out of the statistics and kept in the count. *)
Example scenario_no_communication :
  let out := app3.compute_metrics (H := text_lib) [case_complete; case_no_com] 30 in
  (∃ m, out !! 1%nat = Some m ∧ min_total m = NaN ∧
        estado_calc m = "pendiente") ∧
  app3.summarize out 30 !! k_n = Some (PyInt 2) ∧
  app3.summarize out 30 !! k_n_con_TAT = Some (PyInt 1) ∧
  app3.summarize out 30 !! k_mediana_min = Some (PyFloat (Fin (Qc_of_Z 15))) ∧
  app3.summarize out 30 !! k_cumplimiento = Some (PyFloat (Fin (Qc_of_Z 100))).
Proof.
  cbv zeta. split_and!; [by eexists | reflexivity | reflexivity
                        | float_eval | float_eval].
Qed.

(** An unreadable reception text: both engines go on, with NaN durations. *)
Example scenario_garbled :
  ∃ out m m',
    app.compute_metrics (H := text_lib) [case_garbled] 30 = Ok out ∧
    out !! 0%nat = Some m ∧
    app3.compute_metrics (H := text_lib) [case_garbled] 30 !! 0%nat = Some m' ∧
    derived m = derived m' ∧
    min_recep_a_diag m = NaN ∧ min_total m = NaN ∧
    min_diag_a_com m = Fin (Qc_of_Z 5) ∧ cumple_SLA m = false.
Proof.
  do 3 eexists. split_and!; [reflexivity .. | float_eval | reflexivity].
Qed.

(** The 90th percentile and the median at sample sizes 1, 2 and 3. *)
Example percentile_small_samples :
  Np.nanpercentile [Fin (Qc_of_Z 10)] (Qc_of_Z 90) = Fin (Qc_of_Z 10) ∧
  Np.nanpercentile [Fin (Qc_of_Z 20); Fin (Qc_of_Z 10)] (Qc_of_Z 90)
  = Fin (Qc_of_Z 19) ∧
  Np.nanpercentile [Fin (Qc_of_Z 30); Fin (Qc_of_Z 10); NaN; Fin (Qc_of_Z 20)]
    (Qc_of_Z 90) = Fin (Qc_of_Z 28) ∧
  Np.nanmedian [Fin (Qc_of_Z 20); Fin (Qc_of_Z 10)] = Fin (Qc_of_Z 15) ∧
  Np.nanmedian [Fin (Qc_of_Z 30); Fin (Qc_of_Z 10); Fin (Qc_of_Z 20)]
  = Fin (Qc_of_Z 20).
Proof. split_and!; float_eval. Qed.

(** * Further properties of the code *)

(** ** The engines, case by case *)

Lemma minutes_between_add (t0 t1 t2 : datetime) :
  (minutes_between t0 t1 + minutes_between t1 t2)%Qc = minutes_between t0 t2.
Proof.
  apply Qc_is_canon. unfold minutes_between, Qcplus, Q2Qc; cbn [this].
  rewrite !Qred_correct. unfold Qeq, Qplus; cbn. lia.
Qed.

(** The derived values of a timed row are those of any row with the same
    reception, diagnosis and communication. *)
Lemma annotate_derived_ext (sla_min : Z) (r r' : timed) :
  dt_recepcion r = dt_recepcion r' →
  dt_diagnostico r = dt_diagnostico r' →
  dt_comunicado r = dt_comunicado r' →
  derived (annotate sla_min r) = derived (annotate sla_min r').
Proof. intros Hr Hd Hc. unfold derived, annotate; cbn. by rewrite Hr, Hd, Hc. Qed.

Section engine_extras.
Context `{DateLib}.
Implicit Types (df : list case) (r : case) (sla_min : Z) (i : nat).



End engine_extras.




(** ** The KPI panel *)

Lemma filter_fmap_nil {A B} (P : B → Prop) `{∀ x, Decision (P x)}
    (f : A → B) (l : list A) :
  filter P (f <$> l) = [] ↔ filter (P ∘ f) l = [].
Proof.
  induction l as [|x l IH]; [done |].
  cbn [fmap list_fmap]. rewrite !filter_cons. unfold compose at 1.
  destruct (decide (P (f x))); [done | apply IH].
Qed.

Lemma sin_datos_false (df3 : list metrics) :
  sin_datos df3 = false ↔ df_ok df3 ≠ [].
Proof.
  unfold sin_datos, df_ok. rewrite orb_false_iff, !bool_decide_eq_false.
  rewrite filter_fmap_nil. split; [by intros [_ ?] |].
  intros Hne. split; [| done]. intros ->. by apply Hne.
Qed.

Lemma read_kpis_kpis (n t : Z) (m p c a b : float) :
  read_kpis (kpis n t m p c a b)
  = Kpis (PyInt n) (PyInt t) (PyFloat m) (PyFloat c) (PyFloat p) (PyFloat a).
Proof. done. Qed.

(** X4: the KPI panel never looks up a key its summary lacks.  It shows
    the notice exactly when no case has a total duration; otherwise it shows
    the six figures, the count of cases being the number of rows; and
    behind the guard of the panel the two [summarize] cannot be told
    apart. *)
Theorem kpi_panel_never_misses_a_key (df3 : list metrics) (sla_min : Z) :
  (∀ key, kpi_panel app.summarize df3 sla_min ≠ KeyError key) ∧
  kpi_panel app.summarize df3 sla_min = kpi_panel app3.summarize df3 sla_min ∧
  (kpi_panel app.summarize df3 sla_min = SinDatos ↔ df_ok df3 = []) ∧
  (df_ok df3 ≠ [] →
   ∃ m c p a,
     kpi_panel app.summarize df3 sla_min
     = Kpis (PyInt (Z.of_nat (length df3)))
            (PyInt (Z.of_nat (length (df_ok df3)))) m c p a).
Proof.
  unfold kpi_panel. destruct (sin_datos df3) eqn:Hs.
  - assert (df_ok df3 = []) as Hnil.
    { destruct (decide (df_ok df3 = [])) as [|Hne]; [done |].
      apply sin_datos_false in Hne. congruence. }
    split_and!; try done.
  - pose proof (proj1 (sin_datos_false df3) Hs) as Hne.
    unfold app.summarize, app3.summarize. fold (df_ok df3).
    rewrite !decide_False by done. rewrite !read_kpis_kpis.
    split_and!.
    + done.
    + done.
    + split; [done | by intros ?].
    + intros _. by do 4 eexists.
Qed.

(** ** Percentages *)

(** [100 * (k / n)] as a fraction. *)
Lemma pct_Q (k n : Z) :
  0 < n →
  (Qc_of_Z 100 * (Qc_of_Z k / Qc_of_Z n))%Qc == (100 * k) # (Z.to_pos n).
Proof.
  intros Hn. unfold Qcdiv, Qcmult, Qcinv, Q2Qc, Qc_of_Z; cbn [this].
  rewrite !Qred_correct.
  destruct n as [|p|p]; [lia | | lia].
  unfold Qeq, Qmult, Qinv, inject_Z. cbn -[Z.mul Pos.mul].
  rewrite ?Pos2Z.inj_mul. lia.
Qed.

Lemma pct_le (k1 k2 n : Z) :
  0 < n →
  (Qc_of_Z 100 * (Qc_of_Z k1 / Qc_of_Z n)
   ≤ Qc_of_Z 100 * (Qc_of_Z k2 / Qc_of_Z n))%Qc ↔ k1 ≤ k2.
Proof.
  intros Hn. unfold Qcle. rewrite !pct_Q by done.
  unfold Qle. cbn -[Z.mul]. destruct n as [|p|p]; [lia | | lia].
  cbn -[Z.mul]. nia.
Qed.
Lemma pct_eq (k1 k2 n : Z) :
  0 < n →
  (Qc_of_Z 100 * (Qc_of_Z k1 / Qc_of_Z n))%Qc
  = (Qc_of_Z 100 * (Qc_of_Z k2 / Qc_of_Z n))%Qc ↔ k1 = k2.
Proof.
  intros Hn. split; [| by intros ->].
  intros Heq. apply Z.le_antisymm; apply (pct_le _ _ n Hn); by rewrite Heq.
Qed.

Lemma pct_full (n : Z) :
  0 < n → (Qc_of_Z 100 * (Qc_of_Z n / Qc_of_Z n))%Qc = Qc_of_Z 100.
Proof.
  intros Hn. apply Qc_is_canon. rewrite pct_Q by done.
  unfold Qc_of_Z; cbn [this]. unfold Qeq, inject_Z. cbn -[Z.mul].
  destruct n as [|p|p]; [lia | | lia]. cbn -[Z.mul]. lia.
Qed.

Lemma pct_none (n : Z) :
  0 < n → (Qc_of_Z 100 * (Qc_of_Z 0 / Qc_of_Z n))%Qc = Qc_of_Z 0.
Proof.
  intros Hn. apply Qc_is_canon. rewrite pct_Q by done.
  unfold Qc_of_Z; cbn [this]. unfold Qeq, inject_Z. cbn -[Z.mul]. lia.
Qed.

Lemma pct_bounds (k n : Z) :
  0 ≤ k ≤ n → 0 < n →
  (Qc_of_Z 0 ≤ Qc_of_Z 100 * (Qc_of_Z k / Qc_of_Z n) ≤ Qc_of_Z 100)%Qc.
Proof.
  intros Hk Hn. split.
  - pose proof (proj2 (pct_le 0 k n Hn) (proj1 Hk)) as Hle.
    by rewrite pct_none in Hle.
  - pose proof (proj2 (pct_le k n n Hn) (proj2 Hk)) as Hle.
    by rewrite (pct_full n) in Hle.
Qed.

Lemma pct_eq_100 (k n : Z) :
  0 < n → (Qc_of_Z 100 * (Qc_of_Z k / Qc_of_Z n))%Qc = Qc_of_Z 100 ↔ k = n.
Proof.
  intros Hn. rewrite <-(pct_eq k n n Hn). by rewrite (pct_full n).
Qed.

Lemma pct_eq_0 (k n : Z) :
  0 < n → (Qc_of_Z 100 * (Qc_of_Z k / Qc_of_Z n))%Qc = Qc_of_Z 0 ↔ k = 0.
Proof.
  intros Hn. rewrite <-(pct_eq k 0 n Hn). by rewrite (pct_none n).
Qed.

Lemma length_filter_eq_iff {A} (P : A → Prop) `{∀ x, Decision (P x)} (l : list A) :
  length (filter P l) = length l ↔ Forall P l.
Proof.
  induction l as [|x l IH]; [by split |].
  rewrite filter_cons, Forall_cons. pose proof (length_filter P l) as Hle.
  destruct (decide (P x)); cbn.
  - rewrite <-IH. split; [by intros [= ?] | intros [_ ->]; done].
  - split; [lia | by intros [? _]].
Qed.

Lemma length_filter_mono {A} (P Q : A → Prop)
    `{∀ x, Decision (P x)} `{∀ x, Decision (Q x)} (l : list A) :
  (∀ x, P x → Q x) → (length (filter P l) ≤ length (filter Q l))%nat.
Proof.
  intros HPQ. induction l as [|x l IH]; [done |].
  rewrite !filter_cons. pose proof (HPQ x).
  destruct (decide (P x)), (decide (Q x)); cbn; try lia. tauto.
Qed.

Lemma length_filter_zero_iff {A} (P : A → Prop) `{∀ x, Decision (P x)} (l : list A) :
  length (filter P l) = 0%nat ↔ Forall (λ x, ¬ P x) l.
Proof.
  induction l as [|x l IH]; [by split |].
  rewrite filter_cons, Forall_cons.
  destruct (decide (P x)); cbn.
  - split; [lia | by intros [? _]].
  - rewrite IH. tauto.
Qed.

(** ** The figures of the summary *)

(** Both [summarize] agree on a frame where some case has a total. *)
Lemma summarize_agree (df : list metrics) (sla_min : Z) :
  df_ok df ≠ [] → app.summarize df sla_min = app3.summarize df sla_min.
Proof.
  intros Hne. unfold app.summarize, app3.summarize. fold (df_ok df).
  by rewrite !decide_False.
Qed.

Lemma summarize_compliance_value (df : list metrics) (sla_min : Z) :
  df_ok df ≠ [] →
  app3.summarize df sla_min !! k_cumplimiento
  = Some (PyFloat (Fin
      (Qc_of_Z 100 * (Qc_of_Z (Z.of_nat (length (within_sla sla_min df)))
                      / Qc_of_Z (Z.of_nat (length (df_ok df)))))%Qc)).
Proof.
  intros Hne. by rewrite app3_summarize_compliance, compliance_pct_df_ok.
Qed.

Lemma df_ok_length_pos (df : list metrics) :
  df_ok df ≠ [] → 0 < Z.of_nat (length (df_ok df)).
Proof. destruct (df_ok df); [done | cbn; lia]. Qed.

(** X5: the compliance rate of a summary lies between 0 and 100; it is 100
    exactly when every case with a total duration meets the threshold and 0
    exactly when none does.  Both [summarize], on a frame where some case
    has a total duration. *)
Theorem compliance_rate_between_0_and_100 (df : list metrics) (sla_min : Z) :
  df_ok df ≠ [] →
  ∃ pct,
    app.summarize df sla_min !! k_cumplimiento = Some (PyFloat (Fin pct)) ∧
    app3.summarize df sla_min !! k_cumplimiento = Some (PyFloat (Fin pct)) ∧
    (Qc_of_Z 0 ≤ pct ≤ Qc_of_Z 100)%Qc ∧
    (pct = Qc_of_Z 100 ↔
       Forall (λ m, fle (min_total m) (of_int sla_min) = true) (df_ok df)) ∧
    (pct = Qc_of_Z 0 ↔
       Forall (λ m, fle (min_total m) (of_int sla_min) ≠ true) (df_ok df)).
Proof.
  intros Hne. pose proof (df_ok_length_pos df Hne) as Hpos.
  eexists. rewrite summarize_agree by done.
  split_and!; [by apply summarize_compliance_value
              | by apply summarize_compliance_value | | | |].
  - apply pct_bounds; [| done]. unfold within_sla.
    pose proof (length_filter
      (λ r, fle (min_total r) (of_int sla_min) = true) (df_ok df)). lia.
  - apply pct_bounds; [| done]. unfold within_sla.
    pose proof (length_filter
      (λ r, fle (min_total r) (of_int sla_min) = true) (df_ok df)). lia.
  - rewrite pct_eq_100 by done.
    unfold within_sla. rewrite <-length_filter_eq_iff.
    split; [apply Nat2Z.inj | by intros ->].
  - rewrite pct_eq_0 by done.
    unfold within_sla.
    rewrite <-(length_filter_zero_iff
                 (λ r, fle (min_total r) (of_int sla_min) = true)).
    split; [apply (Nat2Z.inj _ 0%nat) | by intros ->].
Qed.

(** X6: raising the threshold never lowers the compliance rate, and never
    turns the flag of a case from True to False.  Both [summarize]. *)
Theorem compliance_grows_with_threshold (df : list metrics) (sla1 sla2 : Z) :
  sla1 ≤ sla2 → df_ok df ≠ [] →
  (∀ m, fle (min_total m) (of_int sla1) = true →
        fle (min_total m) (of_int sla2) = true) ∧
  ∃ p1 p2,
    app.summarize df sla1 !! k_cumplimiento = Some (PyFloat (Fin p1)) ∧
    app.summarize df sla2 !! k_cumplimiento = Some (PyFloat (Fin p2)) ∧
    app3.summarize df sla1 !! k_cumplimiento = Some (PyFloat (Fin p1)) ∧
    app3.summarize df sla2 !! k_cumplimiento = Some (PyFloat (Fin p2)) ∧
    (p1 ≤ p2)%Qc.
Proof.
  intros Hle Hne. pose proof (df_ok_length_pos df Hne) as Hpos.
  assert (∀ m, fle (min_total m) (of_int sla1) = true →
               fle (min_total m) (of_int sla2) = true) as Hmono.
  { intros m (q & Hq & Hq1)%fle_true. apply fle_true. exists q.
    split; [done |]. eapply Qcle_trans; [done | by apply Qc_of_Z_le]. }
  split; [done |]. do 2 eexists. rewrite !summarize_agree by done.
  split_and!; [by apply summarize_compliance_value .. |].
  apply pct_le; [done |]. apply inj_le. unfold within_sla.
  by apply length_filter_mono.
Qed.

(** ** Order statistics and means stay within the data *)

(** Turns a goal on canonical rationals into one on rationals. *)
Ltac qc_to_q :=
  repeat (progress (unfold Qcle, Qclt, Qcplus, Qcminus, Qcopp, Qcmult, Qcdiv,
                      Qcinv, Q2Qc, Qc_of_Z in *;
                    cbn [this] in *; rewrite ?Qred_correct in * ));
  unfold Qminus in *.

Lemma lerp_within (a b t lo hi : Qc) :
  (lo ≤ a ≤ hi → lo ≤ b ≤ hi → Qc_of_Z 0 ≤ t ≤ Qc_of_Z 1 →
   lo ≤ Np.lerp a b t ≤ hi)%Qc.
Proof.
  unfold Np.lerp. intros [Ha1 Ha2] [Hb1 Hb2] [Ht1 Ht2].
  destruct a as [a ?], b as [b ?], t as [t ?], lo as [lo ?], hi as [hi ?].
  qc_to_q. unfold inject_Z in *.
  split; nra.
Qed.

Lemma percentile_index (k : Z) (q : Qc) :
  0 ≤ k → (Qc_of_Z 0 ≤ q ≤ Qc_of_Z 100)%Qc →
  let idx := (Qc_of_Z k * q / Qc_of_Z 100)%Qc in
  0 ≤ Qfloor idx ≤ k ∧
  (Qc_of_Z 0 ≤ idx - Qc_of_Z (Qfloor idx) ≤ Qc_of_Z 1)%Qc.
Proof.
  intros Hk [Hq0 Hq1] idx.
  assert (0 <= idx <= inject_Z k)%Q as [Hi0 Hi1].
  { subst idx. destruct q as [q ?]. qc_to_q.
    assert (0 <= inject_Z k)%Q as Hk' by (unfold Qle, inject_Z; cbn; lia).
    unfold inject_Z in *.
    assert (/ (100 # 1) == 1 # 100)%Q as Hinv by reflexivity.
    rewrite Hinv. split; nra. }
  pose proof (Qfloor_le idx) as Hfl. pose proof (Qlt_floor idx) as Hfu.
  pose proof (Qfloor_resp_le _ _ Hi0) as Hf0.
  pose proof (Qfloor_resp_le _ _ Hi1) as Hf1.
  rewrite Qfloor_Z in Hf1. change (Qfloor 0) with 0 in Hf0.
  split; [done |].
  generalize dependent (Qfloor idx). intros f Hfl Hfu Hf0 Hf1.
  destruct idx as [i ?]. qc_to_q.
  rewrite inject_Z_plus in Hfu. unfold inject_Z in *. split; lra.
Qed.

Lemma percentile_sorted_within (s : list Qc) (q lo hi : Qc) :
  s ≠ [] → Forall (λ x, lo ≤ x ≤ hi)%Qc s →
  (Qc_of_Z 0 ≤ q ≤ Qc_of_Z 100)%Qc →
  (lo ≤ Np.percentile_sorted s q ≤ hi)%Qc.
Proof.
  intros Hne Hall Hq. unfold Np.percentile_sorted.
  assert (0 < length s)%nat as Hlen by (destruct s; [done | cbn; lia]).
  destruct (percentile_index (Z.of_nat (length s - 1)) q) as [Hf Ht];
    [lia | done |].
  rewrite Z2Nat.id by lia.
  apply lerp_within; [| | done].
  - apply (proj1 (Forall_nth _ (Q2Qc 0) s) Hall). lia.
  - apply (proj1 (Forall_nth _ (Q2Qc 0) s) Hall). lia.
Qed.

Lemma median_sorted_within (s : list Qc) (lo hi : Qc) :
  s ≠ [] → Forall (λ x, lo ≤ x ≤ hi)%Qc s →
  (lo ≤ Np.median_sorted s ≤ hi)%Qc.
Proof.
  intros Hne Hall. unfold Np.median_sorted.
  assert (0 < length s)%nat as Hlen by (destruct s; [done | cbn; lia]).
  assert (length s / 2 < length s)%nat as Hmid
    by (apply Nat.div_lt; lia).
  pose proof (proj1 (Forall_nth _ (Q2Qc 0) s) Hall) as Hnth.
  destruct (Nat.even (length s)); [| by apply Hnth].
  pose proof (Hnth (length s / 2 - 1)%nat ltac:(lia)) as [Ha1 Ha2].
  pose proof (Hnth (length s / 2)%nat Hmid) as [Hb1 Hb2].
  generalize dependent (nth (length s / 2 - 1) s (Q2Qc 0)).
  generalize dependent (nth (length s / 2) s (Q2Qc 0)).
  intros b Hb1 Hb2 a Ha1 Ha2.
  destruct a as [a ?], b as [b ?], lo as [lo ?], hi as [hi ?]. qc_to_q.
  assert (/ inject_Z 2 == 1 # 2)%Q as Hinv by reflexivity.
  rewrite Hinv. split; lra.
Qed.

Lemma qsum_bounds (v : list Qc) (lo hi : Qc) :
  Forall (λ x, lo ≤ x ≤ hi)%Qc v →
  (Qc_of_Z (Z.of_nat (length v)) * lo ≤ Np.qsum v
   ≤ Qc_of_Z (Z.of_nat (length v)) * hi)%Qc.
Proof.
  induction 1 as [|x v [Hx1 Hx2] _ [IH1 IH2]].
  - destruct lo as [lo ?], hi as [hi ?]. cbn [length Np.qsum foldr].
    qc_to_q. change (Z.of_nat 0) with 0. unfold inject_Z. split; lra.
  - cbn [length Np.qsum foldr]. fold (Np.qsum v).
    rewrite Nat2Z.inj_succ.
    generalize dependent (Np.qsum v). generalize (Z.of_nat (length v)).
    intros n s Hs1 Hs2.
    destruct x as [x ?], s as [s ?], lo as [lo ?], hi as [hi ?]. qc_to_q.
    unfold Z.succ. rewrite inject_Z_plus. change (inject_Z 1) with 1%Q.
    generalize dependent (inject_Z n). intros N HN1 HN2. split; nra.
Qed.

Lemma mean_within (v : list Qc) (lo hi : Qc) :
  v ≠ [] → Forall (λ x, lo ≤ x ≤ hi)%Qc v →
  (lo ≤ Np.qsum v / Qc_of_Z (Z.of_nat (length v)) ≤ hi)%Qc.
Proof.
  intros Hne Hall. destruct (qsum_bounds v lo hi Hall) as [H1 H2].
  assert (0 < Z.of_nat (length v)) as Hlen by (destruct v; [done | cbn; lia]).
  generalize dependent (Np.qsum v). generalize dependent (Z.of_nat (length v)).
  intros n Hn s Hs1 Hs2.
  destruct s as [s ?], lo as [lo ?], hi as [hi ?]. qc_to_q.
  assert (0 < inject_Z n)%Q as Hn' by (unfold Qlt, inject_Z; cbn; lia).
  split.
  - apply Qle_shift_div_l; [done |]. lra.
  - apply Qle_shift_div_r; [done |]. lra.
Qed.

Lemma sorted_nth_le (s : list Qc) (i j : nat) :
  StronglySorted Qcle s → (i ≤ j)%nat → (j < length s)%nat →
  (nth i s (Q2Qc 0) ≤ nth j s (Q2Qc 0))%Qc.
Proof.
  intros Hs. revert i j. induction Hs as [|x s Hs IH Hx]; intros i j Hij Hj.
  - cbn in Hj. lia.
  - destruct i as [|i], j as [|j]; cbn in *; try lia.
    + apply Qcle_refl.
    + apply (proj1 (Forall_nth _ (Q2Qc 0) s) Hx). lia.
    + apply IH; lia.
Qed.

(** The index of the 90th percentile is at least [k] whenever
    [10 * k ≤ 9 * m]. *)
Lemma p90_index_ge (m k : Z) :
  0 ≤ k → 10 * k ≤ 9 * m →
  k ≤ Qfloor (Qc_of_Z m * Qc_of_Z 90 / Qc_of_Z 100)%Qc.
Proof.
  intros Hk Hkm. rewrite <-(Qfloor_Z k). apply Qfloor_resp_le.
  qc_to_q. unfold Qle, Qmult, Qinv, inject_Z; cbn -[Z.mul]. lia.
Qed.

Lemma median_le_p90_sorted (s : list Qc) :
  s ≠ [] → StronglySorted Qcle s →
  (Np.median_sorted s ≤ Np.percentile_sorted s (Qc_of_Z 90))%Qc.
Proof.
  intros Hne Hs.
  assert (0 < length s)%nat as Hlen by (destruct s; [done | cbn; lia]).
  assert (Qc_of_Z 0 ≤ Qc_of_Z 90 ≤ Qc_of_Z 100)%Qc as Hq.
  { split; apply Qc_of_Z_le; lia. }
  destruct (decide (length s = 2%nat)) as [H2 | H2].
  - destruct s as [|a [|b [|? ?]]]; try done.
    apply StronglySorted_inv in Hs as [_ Hab].
    apply Forall_cons in Hab as [Hab _].
    change (Np.median_sorted [a; b]) with ((a + b) / Qc_of_Z 2)%Qc.
    change (Np.percentile_sorted [a; b] (Qc_of_Z 90))
      with (Np.lerp a b (Qc_of_Z 1 * Qc_of_Z 90 / Qc_of_Z 100 - Qc_of_Z 0))%Qc.
    unfold Np.lerp.
    destruct a as [a ?], b as [b ?]. qc_to_q. unfold inject_Z.
    assert (/ (2 # 1) == 1 # 2)%Q as -> by reflexivity.
    assert (/ (100 # 1) == 1 # 100)%Q as -> by reflexivity.
    lra.
  - set (k := (length s / 2)%nat).
    destruct (percentile_index (Z.of_nat (length s - 1)) (Qc_of_Z 90))
      as [Hf Ht]; [lia | done |].
    assert (Z.of_nat k ≤ Qfloor (Qc_of_Z (Z.of_nat (length s - 1))
                                 * Qc_of_Z 90 / Qc_of_Z 100)%Qc) as Hk.
    { apply p90_index_ge; [lia |].
      pose proof (Nat.div_mod_eq (length s) 2) as Hdm.
      pose proof (Nat.mod_upper_bound (length s) 2 ltac:(lia)) as Hmod.
      fold k in Hdm.
      destruct (decide (length s mod 2 = 0)%nat) as [Hev | Hodd]; lia. }
    assert (nth k s (Q2Qc 0) ≤ Np.percentile_sorted s (Qc_of_Z 90))%Qc as Hkp.
    { unfold Np.percentile_sorted.
      set (lo := Z.to_nat (Qfloor _)) in *.
      assert (k ≤ lo)%nat as Hklo by (subst lo; lia).
      assert (lo < length s)%nat as Hlo by (subst lo; lia).
      eapply Qcle_trans; [apply (sorted_nth_le s k lo); done |].
      assert (nth lo s (Q2Qc 0) ≤ nth (Nat.min (lo + 1) (length s - 1)) s (Q2Qc 0))%Qc
        as Hab by (apply sorted_nth_le; [done | lia | lia]).
      refine (proj1 (lerp_within _ _ _ _
                       (nth (Nat.min (lo + 1) (length s - 1)) s (Q2Qc 0)) _ _ _)).
      - split; [apply Qcle_refl | done].
      - split; [done | apply Qcle_refl].
      - subst lo. rewrite Z2Nat.id by lia. done. }
    unfold Np.median_sorted. fold k.
    destruct (Nat.even (length s)) eqn:Hev; [| done].
    eapply Qcle_trans; [| exact Hkp].
    assert (nth (k - 1) s (Q2Qc 0) ≤ nth k s (Q2Qc 0))%Qc as Hab.
    { apply sorted_nth_le; [done | lia |]. subst k. apply Nat.div_lt; lia. }
    generalize dependent (nth (k - 1) s (Q2Qc 0)).
    generalize (nth k s (Q2Qc 0)). clear. intros b a Hab.
    destruct a as [a ?], b as [b ?]. qc_to_q.
    assert (/ inject_Z 2 == 1 # 2)%Q as -> by reflexivity. lra.
Qed.

Lemma finite_Forall (P : Qc → Prop) (xs : list float) :
  (∀ x q, x ∈ xs → x = Fin q → P q) → Forall P (Np.finite xs).
Proof.
  intros HP. unfold Np.finite. induction xs as [|x xs IH]; [constructor |].
  cbn. destruct x as [|q]; cbn.
  - apply IH. intros y q' Hy. apply HP. by right.
  - constructor; [apply (HP (Fin q)); [left | done] |].
    apply IH. intros y q' Hy. apply HP. by right.
Qed.

Lemma finite_totals_df_ok (df : list metrics) :
  df_ok df ≠ [] → Np.finite (min_total <$> df_ok df) ≠ [].
Proof.
  intros Hne. destruct (df_ok df) as [|m l] eqn:Hok; [done |].
  assert (m ∈ df_ok df) as Hm by (rewrite Hok; left).
  apply list_elem_of_filter in Hm as [Hfin _].
  cbn. by destruct (min_total m).
Qed.

Lemma sort_sorted (v : list Qc) : StronglySorted Qcle (Np.sort v).
Proof. apply StronglySorted_merge_sort; apply _. Qed.

Lemma sort_Forall (P : Qc → Prop) (v : list Qc) :
  Forall P v → Forall P (Np.sort v).
Proof. unfold Np.sort. by rewrite merge_sort_Permutation. Qed.

Lemma sort_nil (v : list Qc) : v ≠ [] → Np.sort v ≠ [].
Proof.
  intros Hne Hnil. apply Hne, Permutation_nil_r.
  unfold Np.sort in Hnil. by rewrite <-Hnil, merge_sort_Permutation.
Qed.

(** X7: on a frame where some case has a total duration, the median and
    the 90th percentile are finite, the median is at most the 90th
    percentile, and both lie between any two bounds that enclose the total
    durations of the cases.  Both [summarize]. *)
Theorem median_and_p90_within_totals (df : list metrics) (sla_min : Z)
    (lo hi : Qc) :
  df_ok df ≠ [] →
  (∀ m q, m ∈ df → min_total m = Fin q → (lo ≤ q ≤ hi)%Qc) →
  ∃ med p90,
    app.summarize df sla_min !! k_mediana_min = Some (PyFloat (Fin med)) ∧
    app.summarize df sla_min !! k_p90_min = Some (PyFloat (Fin p90)) ∧
    app3.summarize df sla_min !! k_mediana_min = Some (PyFloat (Fin med)) ∧
    app3.summarize df sla_min !! k_p90_min = Some (PyFloat (Fin p90)) ∧
    (lo ≤ med)%Qc ∧ (med ≤ p90)%Qc ∧ (p90 ≤ hi)%Qc.
Proof.
  intros Hne Hall.
  pose proof (finite_totals_df_ok df Hne) as Hfin.
  assert (Forall (λ q, lo ≤ q ≤ hi)%Qc (Np.finite (min_total <$> df_ok df)))
    as Hbounds.
  { apply finite_Forall. intros x q (m & -> & Hm)%list_elem_of_fmap Hq.
    apply list_elem_of_filter in Hm as [_ Hm]. by eapply Hall. }
  set (v := Np.finite (min_total <$> df_ok df)) in *.
  exists (Np.median_sorted (Np.sort v)),
         (Np.percentile_sorted (Np.sort v) (Qc_of_Z 90)).
  rewrite summarize_agree by done.
  assert (app3.summarize df sla_min !! k_mediana_min
          = Some (PyFloat (Fin (Np.median_sorted (Np.sort v))))) as Hmed.
  { unfold app3.summarize. fold (df_ok df). rewrite decide_False by done.
    rewrite kpis_mediana_min. unfold Np.nanmedian. fold v.
    by destruct v. }
  assert (app3.summarize df sla_min !! k_p90_min
          = Some (PyFloat (Fin (Np.percentile_sorted (Np.sort v) (Qc_of_Z 90)))))
    as Hp90.
  { unfold app3.summarize. fold (df_ok df). rewrite decide_False by done.
    rewrite kpis_p90_min. unfold Np.nanpercentile. fold v.
    by destruct v. }
  split_and!; try done.
  - apply (median_sorted_within _ lo hi);
      [by apply sort_nil | by apply sort_Forall].
  - apply median_le_p90_sorted; [by apply sort_nil | apply sort_sorted].
  - apply (percentile_sorted_within _ _ lo hi);
      [by apply sort_nil | by apply sort_Forall |].
    split; apply Qc_of_Z_le; lia.
Qed.

Lemma finite_fmap_nil {A} (f : A → float) (l : list A) :
  Np.finite (f <$> l) = [] ↔ Forall (λ m, f m = NaN) l.
Proof.
  unfold Np.finite. induction l as [|m l IH]; [by split |].
  cbn. rewrite Forall_cons. destruct (f m) eqn:Hm; cbn.
  - rewrite IH. tauto.
  - split; [done | by intros [? _]].
Qed.

Lemma nanmean_NaN_iff {A} (f : A → float) (l : list A) :
  Np.nanmean (f <$> l) = NaN ↔ Forall (λ m, f m = NaN) l.
Proof.
  rewrite <-finite_fmap_nil. unfold Np.nanmean.
  destruct (Np.finite (f <$> l)); by split.
Qed.

Lemma nanmean_within {A} (f : A → float) (l : list A) (lo hi x : Qc) :
  (∀ m q, m ∈ l → f m = Fin q → (lo ≤ q ≤ hi)%Qc) →
  Np.nanmean (f <$> l) = Fin x → (lo ≤ x ≤ hi)%Qc.
Proof.
  intros Hall. unfold Np.nanmean.
  destruct (Np.finite (f <$> l)) as [|y v] eqn:Hf; [done |].
  intros [= <-]. apply (mean_within (y :: v)); [done |]. rewrite <-Hf.
  apply finite_Forall. intros z q (m & -> & Hm)%list_elem_of_fmap Hq.
  by eapply Hall.
Qed.


(** ** The counts of the summary *)

Lemma length_filter_fmap {A B} (P : B → Prop) (Q : A → Prop)
    `{∀ x, Decision (P x)} `{∀ x, Decision (Q x)} (f : A → B) (l : list A) :
  (∀ x, P (f x) ↔ Q x) →
  length (filter P (f <$> l)) = length (filter Q l).
Proof.
  intros HPQ. induction l as [|x l IH]; [done |].
  cbn [fmap list_fmap]. rewrite !filter_cons. pose proof (HPQ x).
  destruct (decide (P (f x))), (decide (Q x)); cbn; try tauto; by rewrite IH.
Qed.

Lemma span_total_defined (r : timed) :
  Pd.fnotna (span_total r) = true ↔
  is_Some (dt_recepcion r) ∧ is_Some (dt_comunicado r).
Proof.
  unfold span_total. destruct (dt_recepcion r), (dt_comunicado r); cbn;
    (split; [intros ?; first [done | split; eauto]
            | intros [[? ?] [? ?]]; done]).
Qed.

Section counts.
Context `{DateLib}.

End counts.

(** ** Sample frames for the summary properties *)

Lemma sample_frame_has_totals :
  df_ok (app3.compute_metrics (H := text_lib)
           [case_complete; case_late; case_no_com] 30) ≠ [].
Proof. vm_compute. congruence. Defined.

Lemma compliance_rate_between_0_and_100_witness :
  ∃ pct,
    app3.summarize (app3.compute_metrics (H := text_lib)
                      [case_complete; case_late; case_no_com] 30) 30
      !! k_cumplimiento = Some (PyFloat (Fin pct)) ∧
    (Qc_of_Z 0 ≤ pct ≤ Qc_of_Z 100)%Qc.
Proof.
  destruct (compliance_rate_between_0_and_100 _ 30 sample_frame_has_totals)
    as (pct & _ & Hpct & Hb & _).
  by exists pct.
Defined.

Lemma compliance_grows_with_threshold_witness :
  ∃ p1 p2,
    app3.summarize (app3.compute_metrics (H := text_lib)
                      [case_complete; case_late; case_no_com] 30) 30
      !! k_cumplimiento = Some (PyFloat (Fin p1)) ∧
    app3.summarize (app3.compute_metrics (H := text_lib)
                      [case_complete; case_late; case_no_com] 30) 45
      !! k_cumplimiento = Some (PyFloat (Fin p2)) ∧
    (p1 ≤ p2)%Qc.
Proof.
  destruct (compliance_grows_with_threshold _ 30 45 ltac:(lia)
              sample_frame_has_totals)
    as (_ & p1 & p2 & _ & _ & H1 & H2 & Hle).
  by exists p1, p2.
Defined.

Lemma median_and_p90_within_totals_witness :
  ∃ med p90,
    app3.summarize (app3.compute_metrics (H := text_lib)
                      [case_complete; case_late; case_no_com] 30) 30
      !! k_mediana_min = Some (PyFloat (Fin med)) ∧
    (Qc_of_Z 15 ≤ med)%Qc ∧ (med ≤ p90)%Qc ∧ (p90 ≤ Qc_of_Z 40)%Qc.
Proof.
  destruct (median_and_p90_within_totals _ 30 (Qc_of_Z 15) (Qc_of_Z 40)
              sample_frame_has_totals)
    as (med & p90 & _ & _ & Hmed & _ & H1 & H2 & H3).
  - intros m q Hm. revert q. revert m Hm.
    refine (proj1 (Forall_forall
                     (λ m, ∀ q, min_total m = Fin q →
                                (Qc_of_Z 15 ≤ q ≤ Qc_of_Z 40)%Qc) _) _).
    let l := eval vm_compute in
        (app3.compute_metrics (H := text_lib)
           [case_complete; case_late; case_no_com] 30) in
    change (app3.compute_metrics (H := text_lib)
              [case_complete; case_late; case_no_com] 30) with l.
    repeat apply Forall_cons_2; [| | | apply Forall_nil_2];
      intros q Hq; try discriminate Hq;
      injection Hq as <-; vm_compute; split; congruence.
  - by exists med, p90.
Defined.



(** ** The filter on the reception date *)

Lemma select_rows_fmap {A} (f : A → bool) (df : list A) :
  select_rows df (f <$> df) = filter (λ r, f r = true) df.
Proof.
  unfold select_rows. induction df as [|r df IH]; [done |].
  cbn [fmap list_fmap zip zip_with]. rewrite !filter_cons. cbn [snd].
  destruct (decide (f r = true)); cbn [fmap list_fmap fst]; by rewrite <-IH.
Qed.

Lemma forallb_isna {A B} (f : A → option B) (df : list A) :
  forallb (negb ∘ Pd.notna) (f <$> df) = true ↔ Forall (λ r, f r = None) df.
Proof.
  induction df as [|r df IH]; [by split |].
  cbn. rewrite andb_true_iff, Forall_cons, IH.
  destruct (f r); cbn; split; intros [? ?]; done.
Qed.

Lemma filter_between_none {A} (f : A → option datetime) (df : list A)
    (start stop : datetime) :
  Forall (λ r, f r = None) df →
  filter (λ r, between (f r) start stop = true) df = [].
Proof.
  induction 1 as [|r df Hr _ IH]; [done |].
  rewrite filter_cons, Hr. by cbn.
Qed.

Section filters.
Context `{DateLib}.
Implicit Types (df : list case) (start stop : datetime) (sla_min : Z).

Lemma app3_source_rows df sla_min :
  source ∘ row <$> app3.compute_metrics df sla_min = df.
Proof.
  rewrite app3_compute_metrics_rows. unfold app3.convert_times.
  rewrite <-!list_fmap_compose. by rewrite <-(list_fmap_id df) at 2.
Qed.


End filters.

(** X12: with the bounds the tabs build, midnight of the first day and
    23:59 of the last day in the zone of the application, a reception
    stamped to the minute with the same UTC offset is inside the bounds
    exactly when its day is one of the days from the first to the last. *)
Theorem reception_between_day_bounds (c : civil) (y1 m1 d1 y2 m2 d2 : Z) :
  0 ≤ hour c ≤ 23 → 0 ≤ minute c ≤ 59 →
  between (Some (instant c))
          (instant (dt_combine y1 m1 d1 0 0 (utcoffset c)))
          (instant (dt_combine y2 m2 d2 23 59 (utcoffset c))) = true ↔
  IsoText.ymd2ord y1 m1 d1 ≤ IsoText.ymd2ord (year c) (month c) (day c)
  ≤ IsoText.ymd2ord y2 m2 d2.
Proof.
  intros Hh Hm. unfold between, instant, dt_combine. cbn [year month day hour
    minute utcoffset]. rewrite bool_decide_eq_true.
  generalize (IsoText.ymd2ord y1 m1 d1), (IsoText.ymd2ord y2 m2 d2),
    (IsoText.ymd2ord (year c) (month c) (day c)).
  intros o1 o2 o. lia.
Qed.


Lemma reception_between_day_bounds_witness :
  between (Some (instant (Civil 2024 5 1 10 0 (-300))))
          (instant (dt_combine 2024 5 1 0 0 (-300)))
          (instant (dt_combine 2024 5 3 23 59 (-300))) = true.
Proof.
  apply (reception_between_day_bounds (Civil 2024 5 1 10 0 (-300))
           2024 5 1 2024 5 3); cbn; [lia | lia |].
  vm_compute. split; congruence.
Defined.

(** * The case store, the handlers and the stored timestamps *)

(** ** The case store *)

Lemma get_set_eq (c : Store.column) (v : option string) (r : case) :
  Store.get c (Store.set c v r) = v.
Proof. by destruct c. Qed.

Lemma get_set_ne (c c' : Store.column) (v : option string) (r : case) :
  c ≠ c' → Store.get c' (Store.set c v r) = Store.get c' r.
Proof. by destruct c, c'. Qed.

Lemma id_set (c : Store.column) (v : option string) (r : case) :
  id (Store.set c v r) = id r.
Proof. by destruct c. Qed.

Lemma id_set_all (kw : Store.kwargs) (r : case) :
  id (Store.set_all kw r) = id r.
Proof.
  unfold Store.set_all. revert r. induction kw as [|[c v] kw IH]; intros r; [done |].
  cbn. by rewrite IH, id_set.
Qed.

Lemma max_id_le (t : list case) (b : Z) :
  0 ≤ b → Forall (λ r, id r ≤ b) t → Store.max_id t ≤ b.
Proof.
  intros Hb. unfold Store.max_id. induction 1 as [|r t Hr _ IH]; cbn; lia.
Qed.

(** The keys of a table that an update has gone through. *)
Lemma ids_fmap_update (f : case → case) (P : case → Prop) `{∀ r, Decision (P r)}
    (t : list case) :
  (∀ r, id (f r) = id r) →
  id <$> ((λ r, if decide (P r) then f r else r) <$> t) = id <$> t.
Proof.
  intros Hf. rewrite <-list_fmap_compose. apply list_fmap_ext.
  intros _ r _. cbn. by destruct (decide (P r)).
Qed.

Lemma wf_init : Store.wf (Store.init_db None).
Proof. split; constructor. Qed.

Lemma wf_insert (kw : Store.kwargs) (d : Store.db) :
  Store.wf d → Store.wf (Store.insert_case kw d).
Proof.
  intros [Hs Hb]. unfold Store.insert_case.
  assert (Store.max_id (Store.table d) ≤ Z.max 0 (Store.seq d)) as Hmax.
  { apply max_id_le; [lia |]. eapply Forall_impl; [done |]. cbn. lia. }
  split; cbn [Store.table Store.seq].
  - rewrite fmap_app. apply StronglySorted_app_2; [| done | by repeat constructor].
    intros x y (r & -> & Hr)%list_elem_of_fmap Hy.
    apply list_elem_of_singleton in Hy as ->.
    rewrite id_set_all. cbn. apply (proj1 (Forall_forall _ _) Hb) in Hr. lia.
  - apply Forall_app. split.
    + eapply Forall_impl; [done |]. cbn. lia.
    + repeat constructor; rewrite id_set_all; cbn.
      * destruct (Store.table d) as [|r t]; [|].
        -- cbn in *. lia.
        -- apply Forall_cons in Hb as [Hr _]. lia.
      * lia.
Qed.

Lemma wf_update (f : case → case) (P : case → Prop) `{∀ r, Decision (P r)}
    (d : Store.db) :
  (∀ r, id (f r) = id r) →
  Store.wf d →
  Store.wf (Store.Db ((λ r, if decide (P r) then f r else r) <$> Store.table d)
                     (Store.seq d)).
Proof.
  intros Hf [Hs Hb]. split; cbn [Store.table Store.seq].
  - by rewrite ids_fmap_update.
  - apply Forall_fmap. eapply Forall_impl; [done |].
    intros r Hr. cbn. destruct (decide (P r)); [by rewrite Hf | done].
Qed.

Lemma wf_update_case_time (i : Z) (c : Store.column) (t : string) (d : Store.db) :
  Store.wf d → Store.wf (Store.update_case_time i c t d).
Proof. apply (wf_update _ (λ r, id r = i)). intros r. apply id_set. Qed.

Lemma wf_update_case_general (i : Z) (kw : Store.kwargs) (d : Store.db) :
  Store.wf d → Store.wf (Store.update_case_general i kw d).
Proof. apply (wf_update _ (λ r, id r = i)). intros r. apply id_set_all. Qed.

(** In a well-formed table a key names one row. *)
Lemma wf_id_inj (t : list case) (x y : case) :
  StronglySorted Z.lt (id <$> t) → x ∈ t → y ∈ t → id x = id y → x = y.
Proof.
  induction t as [|r t IH]; intros Hs Hx Hy Hid; [by apply elem_of_nil in Hx |].
  cbn in Hs. apply StronglySorted_inv in Hs as [Hs Hr].
  apply elem_of_cons in Hx as [-> | Hx], Hy as [-> | Hy]; [done | | | by apply IH].
  - assert (id y < id y); [| lia].
    rewrite <-Hid at 1. apply (proj1 (Forall_forall _ _) Hr).
    apply list_elem_of_fmap. by exists y.
  - assert (id x < id x); [| lia].
    rewrite Hid at 1. apply (proj1 (Forall_forall _ _) Hr).
    apply list_elem_of_fmap. by exists x.
Qed.

Lemma id_desc_trans : Transitive Store.id_desc.
Proof. intros a b c. unfold Store.id_desc. lia. Qed.

Lemma id_desc_total : Total Store.id_desc.
Proof. intros a b. unfold Store.id_desc. lia. Qed.

Lemma reverse_sorted_desc (t : list case) :
  StronglySorted Z.lt (id <$> t) → StronglySorted Store.id_desc (reverse t).
Proof.
  induction t as [|r t IH]; [constructor |].
  rewrite fmap_cons, reverse_cons. intros [Hs Hr]%StronglySorted_inv.
  apply StronglySorted_app_2; [| by apply IH | by repeat constructor].
  intros x y Hx Hy. rewrite elem_of_reverse in Hx.
  apply list_elem_of_singleton in Hy as ->.
  unfold Store.id_desc.
  assert (id r < id x); [| lia].
  apply (proj1 (Forall_forall _ _) Hr). apply list_elem_of_fmap. by exists x.
Qed.

(** [ORDER BY id DESC] on a well-formed table: the rows from the last
    inserted to the first. *)
Lemma select_desc_reverse (d : Store.db) :
  Store.wf d → Store.select_desc d = reverse (Store.table d).
Proof.
  intros [Hs _]. unfold Store.select_desc.
  pose proof id_desc_trans. pose proof id_desc_total.
  apply (StronglySorted_unique_strong Store.id_desc).
  - intros x y Hx Hy Hxy Hyx.
    apply (wf_id_inj (Store.table d)); [done | | |].
    + by rewrite merge_sort_Permutation in Hx.
    + by rewrite elem_of_reverse in Hy.
    + unfold Store.id_desc in *. lia.
  - apply StronglySorted_merge_sort; apply _.
  - by apply reverse_sorted_desc.
  - by rewrite merge_sort_Permutation, reverse_Permutation.
Qed.


(** ** The handlers *)

Lemma run_cons (a : action) (acts : list action) (s : session) :
  run (a :: acts) s = run acts (handle a s).
Proof. done. Qed.

Lemma database_marcar_hito (i : Z) (h : hito) (t : civil) (s : session) :
  database (marcar_hito i h t s)
  = match h with
    | Comunicado =>
        Store.update_case_general i [(Store.c_estado, Some "reportado")]
          (Store.update_case_time i (hito_column h) (IsoWrite.isoformat t)
             (database s))
    | _ => Store.update_case_time i (hito_column h) (IsoWrite.isoformat t)
             (database s)
    end.
Proof. by destruct h. Qed.

Lemma database_admin_estado (e : string) (s : session) :
  database (admin_estado e s)
  = match (load_cases s).1 with
    | [] => database s
    | r :: _ =>
        Store.update_case_general (id r) [(Store.c_estado, Some e)] (database s)
    end.
Proof.
  unfold admin_estado, load_cases.
  destruct (cache s) as [[|r df]|]; [done | done |].
  by destruct (Store.select_desc (database s)).
Qed.

Lemma wf_handle (a : action) (s : session) :
  Store.wf (database s) → Store.wf (database (handle a s)).
Proof.
  intros Hwf. destruct a as [cc hc p sv ci pz n t | i h t | e]; cbn [handle].
  - by apply wf_insert.
  - rewrite database_marcar_hito.
    destruct h; repeat first [apply wf_update_case_general | apply wf_update_case_time]; done.
  - rewrite database_admin_estado. destruct (load_cases s).1; [done |].
    by apply wf_update_case_general.
Qed.

Lemma coherent_handle (a : action) (s : session) :
  coherent s → coherent (handle a s).
Proof.
  intros Hc. destruct a as [cc hc p sv ci pz n t | i h t | e]; cbn [handle].
  - done.
  - done.
  - unfold admin_estado, load_cases, coherent in *.
    destruct (cache s) as [[|r df]|] eqn:Hcache; cbn.
    + by rewrite Hcache.
    + done.
    + destruct (Store.select_desc (database s)) eqn:Hsel; cbn; [by rewrite Hsel | done].
Qed.

Lemma load_cases_coherent (s : session) :
  coherent s → (load_cases s).1 = Store.select_desc (database s).
Proof.
  unfold coherent, load_cases. by destruct (cache s) as [df|]; [intros -> |].
Qed.

Lemma sorted_lt_NoDup (l : list Z) : StronglySorted Z.lt l → NoDup l.
Proof.
  induction 1 as [|x l _ IH Hx]; constructor; [| done].
  intros Hin. apply (proj1 (Forall_forall _ _) Hx) in Hin. lia.
Qed.

(** X13: whatever the operator does, starting from a table with well-formed
    keys and a cache that is not stale, every case keeps a positive key of
    its own, no key is used twice, and [load_cases] returns the rows of the
    table as it is now, from the newest case to the oldest: no handler
    leaves a stale frame in the cache. *)
Theorem keys_and_cache_over_runs (acts : list action) (s : session) :
  Store.wf (database s) → coherent s →
  Store.wf (database (run acts s)) ∧
  NoDup (id <$> Store.table (database (run acts s))) ∧
  (load_cases (run acts s)).1 = reverse (Store.table (database (run acts s))).
Proof.
  revert s. induction acts as [|a acts IH]; intros s Hwf Hc.
  - split; [done |]. split.
    + destruct Hwf as [Hs _]. by apply sorted_lt_NoDup.
    + rewrite load_cases_coherent by done. by apply select_desc_reverse.
  - rewrite run_cons. apply IH; [by apply wf_handle | by apply coherent_handle].
Qed.

Lemma keys_and_cache_over_runs_witness :
  Store.wf (database (run [CrearCaso "IO-1" "" "AB" "Trauma" "" "" "" (Civil 2024 5 1 10 0 (-300));
                           MarcarHito 1 Recepcion (Civil 2024 5 1 10 5 (-300));
                           AdminEstado "reportado"] fresh_session)) ∧
  NoDup (id <$> Store.table (database (run [CrearCaso "IO-1" "" "AB" "Trauma" "" "" "" (Civil 2024 5 1 10 0 (-300));
                           MarcarHito 1 Recepcion (Civil 2024 5 1 10 5 (-300));
                           AdminEstado "reportado"] fresh_session))) ∧
  (load_cases (run [CrearCaso "IO-1" "" "AB" "Trauma" "" "" "" (Civil 2024 5 1 10 0 (-300));
                    MarcarHito 1 Recepcion (Civil 2024 5 1 10 5 (-300));
                    AdminEstado "reportado"] fresh_session)).1
  = reverse (Store.table (database (run [CrearCaso "IO-1" "" "AB" "Trauma" "" "" "" (Civil 2024 5 1 10 0 (-300));
                    MarcarHito 1 Recepcion (Civil 2024 5 1 10 5 (-300));
                    AdminEstado "reportado"] fresh_session))).
Proof.
  apply (keys_and_cache_over_runs _ fresh_session); [apply wf_init | done].
Defined.

Lemma handle_ids (a : action) (s : session) :
  ∃ new, id <$> Store.table (database (handle a s))
         = (id <$> Store.table (database s)) ++ new ∧
         length new = (if is_crear a then 1 else 0)%nat.
Proof.
  destruct a as [cc hc p sv ci pz n t | i h t | e]; cbn [handle is_crear].
  - eexists [_]. split; [| done]. cbn. by rewrite fmap_app.
  - exists []. split; [| done]. rewrite app_nil_r, database_marcar_hito.
    destruct h; cbn [Store.update_case_general Store.update_case_time Store.table];
      rewrite ?(ids_fmap_update _ (λ r, id r = i)); try done;
      intros r; first [apply id_set_all | apply id_set].
  - exists []. split; [| done]. rewrite app_nil_r, database_admin_estado.
    destruct (load_cases s).1 as [|r0 ?]; [done |].
    cbn [Store.update_case_general Store.table].
    apply (ids_fmap_update _ (λ r, id r = id r0)). intros r. apply id_set_all.
Qed.

(** X14: no action removes a case or changes a key: after any run the keys
    of the table are the keys it had, in the same order, followed by one
    new key for each case that was created. *)
Theorem cases_are_never_removed (acts : list action) (s : session) :
  ∃ new, id <$> Store.table (database (run acts s))
         = (id <$> Store.table (database s)) ++ new ∧
         length new = creations acts.
Proof.
  revert s. induction acts as [|a acts IH]; intros s.
  - exists []. by rewrite app_nil_r.
  - rewrite run_cons. destruct (IH (handle a s)) as (new2 & -> & Hl2).
    destruct (handle_ids a s) as (new1 & -> & Hl1).
    exists (new1 ++ new2). split; [by rewrite app_assoc |].
    rewrite length_app, Hl1, Hl2. unfold creations. rewrite filter_cons.
    destruct (is_crear a); [by rewrite decide_True | by rewrite decide_False].
Qed.

Lemma keeps_refl (r : case) : keeps r r.
Proof. by repeat split. Qed.

Lemma keeps_trans (r1 r2 r3 : case) : keeps r1 r2 → keeps r2 r3 → keeps r1 r3.
Proof.
  intros (Hi1 & Hf1 & Hh1) (Hi2 & Hf2 & Hh2). split; [congruence |]. split.
  - intros c Hc. by rewrite Hf2, Hf1.
  - intros h Hh. by apply Hh2, Hh1.
Qed.

Lemma keeps_set_hito (h : hito) (t : string) (r : case) :
  keeps r (Store.set (hito_column h) (Some t) r).
Proof.
  split; [apply id_set |]. split.
  - intros c Hc. apply get_set_ne. intros <-.
    unfold fixed_columns in Hc.
    repeat (apply elem_of_cons in Hc as [Hc | Hc]; [by destruct h |]).
    by apply elem_of_nil in Hc.
  - intros h' Hh'. destruct (decide (hito_column h = hito_column h')) as [<- | Hne].
    + by rewrite get_set_eq.
    + by rewrite get_set_ne.
Qed.

Lemma keeps_set_estado (e : string) (r : case) :
  keeps r (Store.set_all [(Store.c_estado, Some e)] r).
Proof.
  split; [done |]. split.
  - intros c Hc. unfold fixed_columns in Hc.
    repeat (apply elem_of_cons in Hc as [-> | Hc]; [done |]).
    by apply elem_of_nil in Hc.
  - intros h Hh. by destruct h.
Qed.

Lemma handle_keeps (a : action) (s : session) (k : nat) (r : case) :
  Store.table (database s) !! k = Some r →
  ∃ r', Store.table (database (handle a s)) !! k = Some r' ∧ keeps r r'.
Proof.
  intros Hk. destruct a as [cc hc p sv ci pz n t | i h t | e]; cbn [handle].
  - exists r. split; [| apply keeps_refl].
    cbn. apply lookup_app_l_Some, Hk.
  - rewrite database_marcar_hito.
    destruct h; cbn [Store.update_case_general Store.update_case_time Store.table];
      rewrite ?list_lookup_fmap, Hk; cbn [fmap option_fmap option_map];
      eexists; (split; [reflexivity |]).
    1-3: case_decide; [apply keeps_set_hito | apply keeps_refl].
    destruct (decide (id r = i)) as [Hi | Hi].
    + rewrite decide_True by by rewrite id_set.
      eapply keeps_trans; [apply (keeps_set_hito Comunicado) | apply keeps_set_estado].
    + rewrite decide_False by done. apply keeps_refl.
  - rewrite database_admin_estado. destruct (load_cases s).1 as [|r0 ?].
    + exists r. split; [done | apply keeps_refl].
    + cbn [Store.update_case_general Store.table]. rewrite list_lookup_fmap, Hk.
      eexists. split; [reflexivity |].
      case_decide; [apply keeps_set_estado | apply keeps_refl].
Qed.

(** X15: through any run an existing case keeps its place in the table,
    its key and its identification (code, clinical record, patient,
    service, surgeon, specimen, [t_inicio], notes), and a milestone that
    was stamped stays stamped: its text may be overwritten, never
    cleared. *)
Theorem run_keeps_existing_cases (acts : list action) (s : session)
    (k : nat) (r : case) :
  Store.table (database s) !! k = Some r →
  ∃ r', Store.table (database (run acts s)) !! k = Some r' ∧ keeps r r'.
Proof.
  revert s r. induction acts as [|a acts IH]; intros s r Hk.
  - exists r. split; [done | apply keeps_refl].
  - rewrite run_cons. destruct (handle_keeps a s k r Hk) as (r1 & Hk1 & Hr1).
    destruct (IH _ _ Hk1) as (r2 & Hk2 & Hr2).
    exists r2. split; [done |]. by eapply keeps_trans.
Qed.

Lemma run_keeps_existing_cases_witness :
  ∃ r r', Store.table (database s_one) !! 0%nat = Some r ∧
    Store.table (database (run [MarcarHito 1 Recepcion (Civil 2024 5 1 10 5 (-300));
                                AdminEstado "reportado"] s_one)) !! 0%nat = Some r' ∧
    keeps r r'.
Proof.
  eexists. 
  destruct (run_keeps_existing_cases
              [MarcarHito 1 Recepcion (Civil 2024 5 1 10 5 (-300));
               AdminEstado "reportado"] s_one 0 _ eq_refl) as (r' & Hr' & Hk).
  exists r'. split; [reflexivity |]. by split.
Defined.

(** X16: stamping a milestone of case [i] writes the reading into that one
    column of the rows whose key is [i]; for the communication, and only
    for it, the stored state also becomes "reportado"; every other column
    of that case and every other case stay as they were. *)
Theorem marcar_hito_one_case_one_column (i : Z) (h : hito) (t : civil)
    (s : session) (k : nat) (r : case) :
  Store.table (database s) !! k = Some r →
  ∃ r', Store.table (database (marcar_hito i h t s)) !! k = Some r' ∧
        if decide (id r = i) then
          Store.get (hito_column h) r' = Some (IsoWrite.isoformat t) ∧
          estado r' = (match h with
                       | Comunicado => Some "reportado"
                       | _ => estado r
                       end) ∧
          ∀ c, c ≠ hito_column h → c ≠ Store.c_estado →
               Store.get c r' = Store.get c r
        else r' = r.
Proof.
  intros Hk. rewrite database_marcar_hito.
  destruct h; cbn [Store.update_case_general Store.update_case_time Store.table];
    rewrite ?list_lookup_fmap, Hk; cbn [fmap option_fmap option_map];
    eexists; (split; [reflexivity |]).
  1-3: destruct (decide (id r = i)) as [Hi | Hi]; [| done];
       (split; [done |]); (split; [done |]);
       intros c Hc _; by apply get_set_ne.
  destruct (decide (id r = i)) as [Hi | Hi].
  - rewrite decide_True by by rewrite id_set.
    split; [done |]. split; [done |]. intros c Hc He.
    cbn [Store.set_all foldl fst snd].
    by rewrite (get_set_ne Store.c_estado), (get_set_ne (hito_column Comunicado)).
  - by rewrite decide_False.
Qed.

Lemma marcar_hito_one_case_one_column_witness :
  ∃ r r', Store.table (database s_one) !! 0%nat = Some r ∧
    Store.table (database (marcar_hito 1 Comunicado (Civil 2024 5 1 10 20 (-300)) s_one))
      !! 0%nat = Some r' ∧
    t_comunicado r' = Some "2024-05-01T10:20-05:00" ∧
    estado r' = Some "reportado" ∧ t_recepcion r' = t_recepcion r.
Proof.
  eexists.
  destruct (marcar_hito_one_case_one_column 1 Comunicado (Civil 2024 5 1 10 20 (-300))
              s_one 0 _ eq_refl) as (r' & Hr' & Hget & He & Hc).
  exists r'. split; [reflexivity |]. split; [done |]. split; [exact Hget |].
  split; [exact He |]. by apply (Hc Store.c_t_recepcion).
Defined.

Lemma marcar_hito_session (i : Z) (h : hito) (t : civil) (s : session) :
  marcar_hito i h t s = Session (database (marcar_hito i h t s)) None.
Proof. by destruct h. Qed.

(** Two updates of the same key, one after the other. *)
Lemma update_update (i : Z) (f g : case → case) (t : list case) :
  (∀ r, id (f r) = id r) →
  (λ r, if decide (id r = i) then g r else r)
    <$> ((λ r, if decide (id r = i) then f r else r) <$> t)
  = (λ r, if decide (id r = i) then g (f r) else r) <$> t.
Proof.
  intros Hf. rewrite <-list_fmap_compose. apply list_fmap_ext. intros _ r _.
  unfold compose. pose proof (decide (id r = i)) as [Hi | Hi].
  - rewrite (decide_True _ _ Hi). by rewrite !decide_True by by rewrite ?Hf.
  - rewrite (decide_False _ _ Hi). by rewrite !decide_False.
Qed.

(** X17: stamping the same milestone of the same case a second time
    overwrites the first reading: the session is the one the second stamp
    alone gives, so no history of readings is kept. *)
Theorem last_stamp_wins (i : Z) (h : hito) (t1 t2 : civil) (s : session) :
  marcar_hito i h t2 (marcar_hito i h t1 s) = marcar_hito i h t2 s.
Proof.
  rewrite (marcar_hito_session i h t2 (marcar_hito i h t1 s)),
    (marcar_hito_session i h t2 s).
  f_equal. rewrite !database_marcar_hito.
  destruct h; unfold Store.update_case_general, Store.update_case_time;
    cbn [Store.table Store.seq]; f_equal.
  1-3: rewrite (update_update i (Store.set _ _) (Store.set _ _))
         by (intros; apply id_set);
       apply list_fmap_ext; intros _ r _; case_decide; [by destruct r | done].
  rewrite !(update_update i (Store.set _ _) (Store.set_all _))
    by (intros; apply id_set).
  rewrite (update_update i (λ r, Store.set_all _ (Store.set _ _ r))
             (λ r, Store.set_all _ (Store.set _ _ r)))
    by (intros; by rewrite id_set_all, id_set).
  apply list_fmap_ext; intros _ r _; case_decide; [by destruct r | done].
Qed.

Lemma fmap_update_other (i : Z) (f : case → case) (t : list case) :
  Forall (λ r, id r ≠ i) t →
  (λ r, if decide (id r = i) then f r else r) <$> t = t.
Proof.
  induction 1 as [|r t Hr _ IH]; [done |].
  cbn. by rewrite IH, decide_False.
Qed.

Section handlers_and_engines.
Context `{DateLib}.


(** X19: the two buttons of "Administración" rewrite the stored state of
    the last row of the table, the newest case, and of no other row,
    whichever case is selected on the first tab. *)
Theorem admin_estado_rewrites_newest_case
    (e : string) (s : session) (t : list case) (r : case) :
  Store.wf (database s) → coherent s →
  Store.table (database s) = t ++ [r] →
  Store.table (database (admin_estado e s)) = t ++ [with_estado (Some e) r].
Proof.
  intros Hwf Hc Ht. rewrite database_admin_estado, load_cases_coherent by done.
  rewrite select_desc_reverse, Ht, reverse_app by done. cbn [reverse rev_append app].
  cbn [Store.update_case_general Store.table]. rewrite Ht, fmap_app.
  destruct Hwf as [Hs _]. rewrite Ht, fmap_app in Hs.
  apply StronglySorted_app in Hs as (Hlt & _ & _).
  rewrite fmap_update_other.
  - cbn. by rewrite decide_True.
  - apply Forall_forall. intros x Hx.
    assert (id x < id r); [| lia].
    apply Hlt; [apply list_elem_of_fmap; by exists x | cbn; apply list_elem_of_singleton; done].
Qed.


End handlers_and_engines.

(** ** Writing a timestamp and reading it back *)

Ltac divlia := Z.div_mod_to_equations; lia.

Lemma digit_char_spec (d : Z) :
  0 ≤ d ≤ 9 →
  IsoText.digit (IsoWrite.digit_char d) = Some d ∧
  IsoWrite.digit_char d ≠ "+"%char ∧ IsoWrite.digit_char d ≠ "-"%char.
Proof.
  intros Hd.
  assert (d = 0 ∨ d = 1 ∨ d = 2 ∨ d = 3 ∨ d = 4 ∨ d = 5 ∨ d = 6 ∨ d = 7 ∨
          d = 8 ∨ d = 9) as Hcases by lia.
  repeat (destruct Hcases as [-> | Hcases]; [by vm_compute |]).
  subst d. by vm_compute.
Qed.

Lemma digits_two_digits (n : Z) :
  0 ≤ n ≤ 99 → IsoText.digits (IsoWrite.two_digits n) = Some n.
Proof.
  intros Hn. unfold IsoWrite.two_digits, IsoText.digits, IsoText.digits_from.
  destruct (digit_char_spec (n / 10)) as (-> & _); [divlia |].
  destruct (digit_char_spec (n mod 10)) as (-> & _); [divlia |].
  cbn [mbind option_bind]. f_equal. divlia.
Qed.

Lemma digits_four_digits (n : Z) :
  0 ≤ n ≤ 9999 → IsoText.digits (IsoWrite.four_digits n) = Some n.
Proof.
  intros Hn. unfold IsoWrite.four_digits, IsoText.digits, IsoText.digits_from.
  destruct (digit_char_spec (n / 1000)) as (-> & _); [divlia |].
  destruct (digit_char_spec (n / 100 mod 10)) as (-> & _); [divlia |].
  destruct (digit_char_spec (n / 10 mod 10)) as (-> & _); [divlia |].
  destruct (digit_char_spec (n mod 10)) as (-> & _); [divlia |].
  cbn [mbind option_bind]. f_equal. divlia.
Qed.

Lemma parse_date_written (y m d : Z) :
  0 ≤ y ≤ 9999 → 0 ≤ m ≤ 99 → 0 ≤ d ≤ 99 →
  IsoText.parse_isoformat_date
    (IsoWrite.four_digits y ++ ["-"%char] ++ IsoWrite.two_digits m
       ++ ["-"%char] ++ IsoWrite.two_digits d)
  = Some (y, m, d).
Proof.
  intros Hy Hm Hd.
  pose proof (digits_four_digits y Hy) as Ey.
  pose proof (digits_two_digits m Hm) as Em.
  pose proof (digits_two_digits d Hd) as Ed.
  unfold IsoWrite.four_digits, IsoWrite.two_digits in *.
  cbn [app IsoText.parse_isoformat_date].
  rewrite bool_decide_true by done. by rewrite Ey, Em, Ed.
Qed.

Lemma parse_clock_written (h m : Z) :
  0 ≤ h ≤ 99 → 0 ≤ m ≤ 99 →
  IsoText.parse_hh_mm_ss_ff
    (IsoWrite.two_digits h ++ [":"%char] ++ IsoWrite.two_digits m)
  = Some (h, m, 0, 0).
Proof.
  intros Hh Hm.
  pose proof (digits_two_digits h Hh) as Eh.
  pose proof (digits_two_digits m Hm) as Em.
  unfold IsoWrite.two_digits in *.
  cbn [app IsoText.parse_hh_mm_ss_ff].
  rewrite Eh. cbn [mbind option_bind]. by rewrite Em.
Qed.

Lemma split_offset_written (h m off : Z) :
  0 ≤ h ≤ 99 → 0 ≤ m ≤ 99 → 0 ≤ Z.abs off < 6000 →
  IsoText.split_offset
    (IsoWrite.two_digits h ++ [":"%char] ++ IsoWrite.two_digits m
       ++ IsoWrite.offset_text off)
  = (IsoWrite.two_digits h ++ [":"%char] ++ IsoWrite.two_digits m,
     Some (if bool_decide (off < 0) then -1 else 1,
           IsoWrite.two_digits (Z.abs off / 60) ++ [":"%char]
             ++ IsoWrite.two_digits (Z.abs off mod 60))).
Proof.
  intros Hh Hm Hoff.
  destruct (digit_char_spec (h / 10)) as (_ & Hp1 & Hm1); [divlia |].
  destruct (digit_char_spec (h mod 10)) as (_ & Hp2 & Hm2); [divlia |].
  destruct (digit_char_spec (m / 10)) as (_ & Hp3 & Hm3); [divlia |].
  destruct (digit_char_spec (m mod 10)) as (_ & Hp4 & Hm4); [divlia |].
  unfold IsoWrite.two_digits, IsoWrite.offset_text in *.
  cbn [app IsoText.split_offset].
  rewrite !(bool_decide_false (IsoWrite.digit_char _ = _)) by done.
  rewrite !(bool_decide_false (":"%char = _)) by done.
  destruct (bool_decide (off < 0)).
  - rewrite (bool_decide_false ("-"%char = "+"%char)) by done.
    by rewrite bool_decide_true by done.
  - by rewrite bool_decide_true by done.
Qed.

Lemma parse_offset_written (sign a : Z) :
  0 ≤ a < 1440 →
  IsoText.parse_offset sign
    (IsoWrite.two_digits (a / 60) ++ [":"%char] ++ IsoWrite.two_digits (a mod 60))
  = Some (sign * (a * 60 * 1000000)).
Proof.
  intros Ha. unfold IsoText.parse_offset.
  rewrite bool_decide_true by (left; done).
  rewrite parse_clock_written by divlia. cbn [mbind option_bind].
  rewrite bool_decide_true by divlia. f_equal. f_equal. divlia.
Qed.

Lemma parse_time_written (h m off : Z) :
  0 ≤ h ≤ 99 → 0 ≤ m ≤ 99 → -1440 < off < 1440 →
  IsoText.parse_isoformat_time
    (IsoWrite.two_digits h ++ [":"%char] ++ IsoWrite.two_digits m
       ++ IsoWrite.offset_text off)
  = Some (h, m, 0, 0, off * 60 * 1000000).
Proof.
  intros Hh Hm Hoff. unfold IsoText.parse_isoformat_time.
  rewrite split_offset_written by lia.
  rewrite parse_clock_written by done. cbn [mbind option_bind].
  rewrite parse_offset_written by lia. cbn [mbind option_bind].
  do 2 f_equal. case_bool_decide; lia.
Qed.

Lemma parse_written (c : civil) :
  valid_civil c → IsoText.parse (IsoWrite.isoformat_chars c) = Some (instant c).
Proof.
  intros (Hy & Hm & Hd & Hh & Hmi & Hoff). unfold IsoText.parse.
  assert (IsoText.days_in_month (year c) (month c) ≤ 31) as Hdim.
  { unfold IsoText.days_in_month.
    repeat case_bool_decide; try lia. destruct (IsoText.is_leap (year c)); lia. }
  change (IsoWrite.isoformat_chars c)
    with ((IsoWrite.four_digits (year c) ++ ["-"%char]
             ++ IsoWrite.two_digits (month c) ++ ["-"%char]
             ++ IsoWrite.two_digits (day c))
          ++ "T"%char :: (IsoWrite.two_digits (hour c) ++ [":"%char]
             ++ IsoWrite.two_digits (minute c)
             ++ IsoWrite.offset_text (utcoffset c))).
  rewrite take_app_length', drop_app_length' by done.
  rewrite parse_date_written by lia. cbn [mbind option_bind].
  rewrite parse_time_written by lia. cbn [mbind option_bind].
  unfold IsoText.make_datetime. rewrite bool_decide_true by lia.
  f_equal. unfold instant. lia.
Qed.

Lemma isoformat_not_empty (c : civil) : IsoWrite.isoformat c ≠ "".
Proof. done. Qed.

Lemma parse_iso_written (c : civil) :
  valid_civil c →
  app.parse_iso (H := text_lib) (Some (IsoWrite.isoformat c)) = Some (instant c).
Proof.
  intros Hc. unfold app.parse_iso. rewrite decide_False by apply isoformat_not_empty.
  cbn [fromisoformat text_lib]. unfold IsoText.fromisoformat, IsoWrite.isoformat.
  by rewrite list_ascii_of_string_of_list_ascii, parse_written.
Qed.

Lemma to_datetime_written (c : civil) :
  valid_civil c →
  app3.to_datetime_coerce (H := text_lib) (Some (IsoWrite.isoformat c))
  = Some (instant c).
Proof.
  intros Hc. unfold app3.to_datetime_coerce.
  cbn [to_datetime text_lib]. unfold IsoText.to_datetime, IsoWrite.isoformat.
  rewrite list_ascii_of_string_of_list_ascii.
  change (IsoText.unslash (IsoWrite.isoformat_chars c))
    with (IsoWrite.isoformat_chars c).
  by rewrite parse_written.
Qed.

(** X21: the text a handler writes for a valid wall-clock reading with its
    UTC offset, [isoformat(timespec="minutes")], is read back by both
    engines, with the parsers as modelled on texts, to the instant that
    reading denotes. *)
Theorem written_timestamp_reads_back (c : civil) :
  valid_civil c →
  app.parse_iso (H := text_lib) (Some (IsoWrite.isoformat c)) = Some (instant c) ∧
  app3.to_datetime_coerce (H := text_lib) (Some (IsoWrite.isoformat c))
  = Some (instant c).
Proof. intros Hc. split; [by apply parse_iso_written | by apply to_datetime_written]. Qed.

Lemma written_timestamp_reads_back_witness :
  valid_civil (Civil 2024 2 29 23 59 (-300)) ∧
  app.parse_iso (H := text_lib) (Some "2024-02-29T23:59-05:00")
  = Some (instant (Civil 2024 2 29 23 59 (-300))) ∧
  app3.to_datetime_coerce (H := text_lib) (Some "2024-02-29T23:59-05:00")
  = Some (instant (Civil 2024 2 29 23 59 (-300))).
Proof.
  assert (valid_civil (Civil 2024 2 29 23 59 (-300))) as Hv by (vm_compute; intuition congruence).
  split; [exact Hv |]. exact (written_timestamp_reads_back _ Hv).
Defined.

Lemma same_day_minutes (c0 c1 : civil) :
  year c1 = year c0 → month c1 = month c0 → day c1 = day c0 →
  utcoffset c1 = utcoffset c0 →
  minutes_between (instant c0) (instant c1)
  = Qc_of_Z ((hour c1 * 60 + minute c1) - (hour c0 * 60 + minute c0)).
Proof.
  intros Hy Hm Hd Ho. unfold minutes_between, instant. rewrite Hy, Hm, Hd, Ho.
  apply Qc_is_canon. unfold Q2Qc, Qc_of_Z; cbn [this].
  rewrite Qred_correct. unfold Qeq, inject_Z; cbn [Qnum Qden]. lia.
Qed.

Lemma fle_of_int (a b : Z) :
  fle (Fin (Qc_of_Z a)) (of_int b) = bool_decide (a ≤ b).
Proof.
  unfold fle, of_int. apply bool_decide_ext.
  unfold Qcle, Qc_of_Z; cbn [this]. unfold Qle, inject_Z; cbn [Qnum Qden]. lia.
Qed.

Lemma load_cases_marcar_hito (i : Z) (h : hito) (t : civil) (s : session) :
  (load_cases (marcar_hito i h t s)).1
  = Store.select_desc (database (marcar_hito i h t s)).
Proof. by destruct h. Qed.


Lemma s_one_wf : Store.wf (database s_one).
Proof. apply (wf_handle _ fresh_session), wf_init. Qed.



Lemma admin_estado_rewrites_newest_case_witness :
  Store.table (database (admin_estado "reportado"
                           (crear_caso "IO-2" "" "" "Trauma" "" "" ""
                              (Civil 2024 5 1 11 0 (-300)) s_one)))
  = Store.table (database s_one)
    ++ [with_estado (Some "reportado")
          (Case 2 (Some "IO-2") None None (Some "Trauma") None None
             (Some "pendiente") (Some "2024-05-01T11:00-05:00")
             None None None None None)].
Proof.
  apply admin_estado_rewrites_newest_case.
  - apply wf_handle with (a := CrearCaso "IO-2" "" "" "Trauma" "" "" ""
                                 (Civil 2024 5 1 11 0 (-300))), s_one_wf.
  - exact I.
  - vm_compute. reflexivity.
Defined.

